(** * github-runner-scaler: the fetch-aggregate-cache engine

    A shallow embedding of [github-runner-scaler.go] and the proofs of the
    properties its specification states about it.

    - Go strings are byte strings: [string].
    - Go's [int] and [time.Duration] are 64-bit: [Z] with the wrap-around
      (resp. the saturation of [Time.Sub]) written out.
    - Functions returning [(T, error)] return a pair whose second component
      is [option error], [None] being Go's [nil].
    - The network and the clock are the outside world: operations on them
      pass a world state along. *)

From Stdlib Require Import String Ascii List ZArith Lia Bool Arith.
Import ListNotations.

Local Open Scope string_scope.

Set Warnings "-register-all".

(* ================================================================== *)
(** * Package [strings] and [fmt], as far as the program uses them     *)
(* ================================================================== *)

Abbreviation len := String.length.

Module strings.

(** [s[i:j]] for [i <= j <= len(s)]. *)
Definition slice (s : string) (i j : nat) : string := substring i (j - i) s.

(** [len(s) >= len(prefix) && s[:len(prefix)] == prefix] *)
Definition HasPrefix (s prefix : string) : bool :=
  (len prefix <=? len s)%nat && (slice s 0 (len prefix) =? prefix).

(** [len(s) >= len(suffix) && s[len(s)-len(suffix):] == suffix] *)
Definition HasSuffix (s suffix : string) : bool :=
  (len suffix <=? len s)%nat
  && (slice s (len s - len suffix) (len s) =? suffix).

(** [if HasSuffix(s, suffix) { return s[:len(s)-len(suffix)] }; return s] *)
Definition TrimSuffix (s suffix : string) : string :=
  if HasSuffix s suffix then slice s 0 (len s - len suffix) else s.

End strings.

Module fmt.

(** [fmt.Sprintf] for formats whose only verb is [%s], applied to
    strings.  A verb without operand prints [%!s(MISSING)]. *)
Fixpoint Sprintf (format : string) (a : list string) : string :=
  match format with
  | EmptyString => EmptyString
  | String "%" (String "s" rest) =>
      match a with
      | x :: a' => x ++ Sprintf rest a'
      | [] => "%!s(MISSING)" ++ Sprintf rest []
      end
  | String c rest => String c (Sprintf rest a)
  end.

End fmt.

(* ================================================================== *)
(** * URL builder                                                      *)
(* ================================================================== *)

(** [buildAPIURL] of the source. *)
Definition buildAPIURL (baseURL endpoint : string) : string :=
  if strings.HasPrefix baseURL "https://api.github.com" then
    fmt.Sprintf "%s/%s" [strings.TrimSuffix baseURL "/"; endpoint]
  else
    fmt.Sprintf "%s/api/v3/%s" [strings.TrimSuffix baseURL "/"; endpoint].

(** The specification's [trimTrailingSlash]: the base URL without its
    trailing slash, when it has one. *)
Fixpoint trimTrailingSlash (s : string) : string :=
  match s with
  | EmptyString => EmptyString
  | String c EmptyString => if (c =? "/")%char then EmptyString else s
  | String c rest => String c (trimTrailingSlash rest)
  end.

(** Removal of every trailing slash, as [strings.TrimRight(s, "/")] would
    do it; the program does not call it.  This is the reading of "strips
    all trailing slashes". *)
Fixpoint trimAllTrailingSlashes (s : string) : string :=
  match s with
  | EmptyString => EmptyString
  | String c rest =>
      let r := trimAllTrailingSlashes rest in
      if (c =? "/")%char && (r =? EmptyString) then EmptyString
      else String c r
  end.

(** The text [buildAPIURL] puts between base URL and endpoint path. *)
Definition separator (baseURL : string) : string :=
  if strings.HasPrefix baseURL "https://api.github.com" then "/"
  else "/api/v3/".

(** The join point is where the separator starts in the result.  The
    slash is doubled there when the byte before it is a slash too. *)
Definition join_at (baseURL : string) : nat :=
  len (strings.TrimSuffix baseURL "/").

Definition doubled_slash_at_join (baseURL endpoint : string) : bool :=
  match join_at baseURL with
  | O => false
  | S k => substring k 2 (buildAPIURL baseURL endpoint) =? "//"
  end.

(* ================================================================== *)
(** * Values of the program                                            *)
(* ================================================================== *)

(** Go's [error] values.  The program only tests them against [nil] and
    prints them; they are kept by origin. *)
Inductive error : Type :=
| LibraryError (msg : string)        (* net/url, net/http, reading a body *)
| Errorf (msg : string)              (* built by [fmt.Errorf] *)
| UnmarshalTypeError (Value : string). (* encoding/json: JSON value of the wrong kind *)

(** [Repo] and [WorkflowRun] of the source. *)
Record Repo : Type := { FullName : string }.

Record WorkflowRun : Type := { Status : string }.

(** Go's [int] on the 64-bit targets the program is built for. *)
Definition MaxInt : Z := 2 ^ 63 - 1.

Definition MinInt : Z := - 2 ^ 63.

Definition wrap_int (z : Z) : Z := (z + 2 ^ 63) mod 2 ^ 64 - 2 ^ 63.

(** [time.Time] as nanoseconds elapsed since the zero [Time]; a
    [time.Duration] is an [int64] count of nanoseconds. *)
Definition Time : Type := Z.

Definition Duration : Type := Z.

Definition zeroTime : Time := 0%Z.

Definition maxDuration : Duration := MaxInt.

Definition minDuration : Duration := MinInt.

Definition Second : Duration := 1000000000%Z.

(** [t.Sub(u)]: the difference, or the largest (smallest) duration when it
    does not fit. *)
Definition Time_Sub (t u : Time) : Duration :=
  if (maxDuration <? t - u)%Z then maxDuration
  else if (t - u <? minDuration)%Z then minDuration
  else (t - u)%Z.

(* ================================================================== *)
(** * Package [encoding/json], decoding into the program's types       *)
(* ================================================================== *)

Module json.

(** A JSON document.  The members of an object keep their order and
    their duplicates, which the decoder sees one after the other. *)
Inductive Value : Type :=
| Null
| Bool (b : bool)
| Number (literal : string)
| Str (s : string)
| Array (items : list Value)
| Object (members : list (string * Value)).

(** The name [UnmarshalTypeError] gives to the kind of a JSON value. *)
Definition kind (j : Value) : string :=
  match j with
  | Null => "null"
  | Bool _ => "bool"
  | Number _ => "number"
  | Str _ => "string"
  | Array _ => "array"
  | Object _ => "object"
  end.

(** Decoding stores into a variable that already holds a value, and keeps
    the first type error while it goes on ([saveError]). *)
Definition Dec (T : Type) : Type := T -> option error -> T * option error.

Definition saveError (saved : option error) (e : error) : option error :=
  match saved with
  | None => Some e
  | Some _ => saved
  end.

Definition mismatch {T : Type} (j : Value) : Dec T :=
  fun v saved => (v, saveError saved (UnmarshalTypeError (kind j))).

Definition keep {T : Type} : Dec T := fun v saved => (v, saved).

(** Member names are bound to struct fields by exact name or, failing
    that, by folded name.  [foldName] maps ASCII letters to upper case;
    the two runes outside ASCII whose case orbit holds an ASCII letter,
    U+017F (bytes C5 BF) and U+212A (bytes E2 84 AA), fold to [S] and [K].
    The other bytes outside ASCII are left as they are: the decoder folds
    their runes to runes outside ASCII again, so that a name holding one
    never equals the folded name of a field of this program either way. *)
Definition upper (c : ascii) : ascii :=
  let n := nat_of_ascii c in
  if (97 <=? n)%nat && (n <=? 122)%nat then ascii_of_nat (n - 32) else c.

Fixpoint foldName (s : string) : string :=
  match s with
  | EmptyString => EmptyString
  | String c rest =>
      match nat_of_ascii c, rest with
      | 197%nat, String d rest' =>
          if (nat_of_ascii d =? 191)%nat then String "S" (foldName rest')
          else String c (foldName rest)
      | 226%nat, String d (String e rest') =>
          if (nat_of_ascii d =? 132)%nat && (nat_of_ascii e =? 170)%nat
          then String "K" (foldName rest')
          else String c (foldName rest)
      | _, _ => String (upper c) (foldName rest)
      end
  end.

Definition binds (field key : string) : bool :=
  (key =? field) || (foldName key =? foldName field).

(** A JSON value stored into a [string]. *)
Definition value_string (j : Value) : Dec string :=
  match j with
  | Str s => fun _ saved => (s, saved)
  | Null => keep
  | _ => mismatch j
  end.

(** The members of a JSON object stored into a struct with one field
    tagged [field]; [store j] stores [j] into that field. *)
Fixpoint object {T : Type} (field : string) (store : Value -> Dec T)
    (members : list (string * Value)) : Dec T :=
  fun v saved =>
    match members with
    | [] => (v, saved)
    | (key, j) :: rest =>
        if binds field key then
          let '(v1, saved1) := store j v saved in
          object field store rest v1 saved1
        else object field store rest v saved
    end.

(** A JSON value stored into a struct with one field. *)
Definition value_struct {T : Type} (field : string) (store : Value -> Dec T)
    (j : Value) : Dec T :=
  match j with
  | Object members => object field store members
  | Null => keep
  | _ => mismatch j
  end.

(** A Go slice: its backing array as far as it was ever written, and its
    length. *)
Record Slice (T : Type) : Type := { arr : list T; n : nat }.

Arguments arr {T} _.
Arguments n {T} _.

Definition nil_slice {T : Type} : Slice T := {| arr := []; n := 0 |}.

Definition elems {T : Type} (s : Slice T) : list T := firstn (n s) (arr s).

(** The items of a JSON array stored one after the other: item [i] goes
    into element [i] of the backing array when there is one, into a zero
    value past its end. *)
Fixpoint array {T : Type} (zero : T) (store : Value -> Dec T)
    (items : list Value) (old : list T) (saved : option error)
    : list T * option error :=
  match items with
  | [] => ([], saved)
  | j :: items' =>
      let '(x, saved1) := store j (hd zero old) saved in
      let '(xs, saved2) := array zero store items' (tl old) saved1 in
      (x :: xs, saved2)
  end.

(** A JSON value stored into a slice: an array sets the length to its
    number of items (an empty one gives a fresh empty slice), [null] gives
    the nil slice. *)
Definition value_slice {T : Type} (zero : T) (store : Value -> Dec T)
    (j : Value) : Dec (Slice T) :=
  match j with
  | Array [] => fun _ saved => (nil_slice, saved)
  | Array items =>
      fun v saved =>
        let '(xs, saved1) := array zero store items (arr v) saved in
        ({| arr := xs ++ skipn (List.length items) (arr v);
            n := List.length items |}, saved1)
  | Null => fun _ saved => (nil_slice, saved)
  | _ => mismatch j
  end.

End json.

(** What [json.NewDecoder(resp.Body)] finds in a body: the first JSON
    value of the stream, or the error of reading or scanning it. *)
Inductive Body : Type :=
| Document (j : json.Value)
| Unreadable (e : error).

(** [Decode(&v)]: the error of the stream, or the first type error met
    while storing the document into [v]. *)
Definition Decode {T : Type} (store : json.Value -> json.Dec T)
    (body : Body) (v : T) : T * option error :=
  match body with
  | Document j => store j v None
  | Unreadable e => (v, Some e)
  end.

(** The stores of the three types the program decodes into. *)
Definition store_Repo : json.Value -> json.Dec Repo :=
  json.value_struct "full_name"
    (fun j r saved =>
       let '(s, saved1) := json.value_string j (FullName r) saved in
       ({| FullName := s |}, saved1)).

Definition store_WorkflowRun : json.Value -> json.Dec WorkflowRun :=
  json.value_struct "status"
    (fun j r saved =>
       let '(s, saved1) := json.value_string j (Status r) saved in
       ({| Status := s |}, saved1)).

Definition store_Repos : json.Value -> json.Dec (json.Slice Repo) :=
  json.value_slice {| FullName := "" |} store_Repo.

(** [struct { WorkflowRuns []WorkflowRun `json:"workflow_runs"` }] is
    its one field. *)
Definition store_workflowRuns
    : json.Value -> json.Dec (json.Slice WorkflowRun) :=
  json.value_struct "workflow_runs"
    (json.value_slice {| Status := "" |} store_WorkflowRun).

(* ================================================================== *)
(** * Package [net/http] and the outside world                         *)
(* ================================================================== *)

Module http.

(** [http.Header] as the program uses it: one value per key, the key set
    last first. *)
Definition Header : Type := list (string * string).

Definition isLower (c : ascii) : bool :=
  (97 <=? nat_of_ascii c)%nat && (nat_of_ascii c <=? 122)%nat.

Definition isUpper (c : ascii) : bool :=
  (65 <=? nat_of_ascii c)%nat && (nat_of_ascii c <=? 90)%nat.

Definition isDigit (c : ascii) : bool :=
  (48 <=? nat_of_ascii c)%nat && (nat_of_ascii c <=? 57)%nat.

(** [validHeaderFieldByte]: the bytes of an HTTP token. *)
Definition validHeaderFieldByte (c : ascii) : bool :=
  isLower c || isUpper c || isDigit c
  || existsb (Ascii.eqb c)
       ["!"; "#"; "$"; "%"; "&"; "'"; "*"; "+"; "-"; "."; "^"; "_"; "`";
        "|"; "~"]%char.

Fixpoint forallBytes (f : ascii -> bool) (s : string) : bool :=
  match s with
  | EmptyString => true
  | String c rest => f c && forallBytes f rest
  end.

(** The first letter and every letter after a dash in upper case, the
    other letters in lower case. *)
Fixpoint canonicalize (upper : bool) (s : string) : string :=
  match s with
  | EmptyString => EmptyString
  | String c rest =>
      let c' :=
        if upper && isLower c then ascii_of_nat (nat_of_ascii c - 32)
        else if negb upper && isUpper c
             then ascii_of_nat (nat_of_ascii c + 32)
             else c in
      String c' (canonicalize (c' =? "-")%char rest)
  end.

(** [textproto.CanonicalMIMEHeaderKey]: a key that holds a byte outside
    the token bytes is returned as it is. *)
Definition CanonicalMIMEHeaderKey (s : string) : string :=
  if forallBytes validHeaderFieldByte s then canonicalize true s else s.

(** [h.Set(key, value)]: the entry of the canonical form of [key] is
    replaced. *)
Definition Header_Set (key value : string) (h : Header) : Header :=
  (CanonicalMIMEHeaderKey key, value)
  :: filter (fun kv => negb (fst kv =? CanonicalMIMEHeaderKey key)) h.

(** A request as the program builds it: [URL] is the string it gave to
    [http.NewRequest], before net/http parses and re-encodes it (what is
    fetched is a function of that string, and two strings can stand for
    one fetched URL); [Headers] is the map [req.Header], to which the
    transport adds headers of its own on the wire. *)
Record Request : Type := {
  Method : string;
  URL : string;
  Headers : Header }.

Record Response : Type := {
  StatusCode : Z;
  Status : string;        (* the status line, "404 Not Found" *)
  Body_ : Body }.

Definition StatusOK : Z := 200.

Definition StatusInternalServerError : Z := 500.

End http.

(** The platform the program runs on: the URL syntax check made by
    [http.NewRequest], the round trip of [client.Do], and the clock.  The
    last two act on the state of the world.  [client_Do] describes the
    round trips that come back; the program sets no timeout, and a round
    trip that never comes back is a call that takes no step: what is
    proved about callers is what holds at every step, not that a step is
    ever taken. *)
Class Platform (World : Type) : Type := {
  url_Parse : string -> option error;
  client_Do : http.Request -> World -> (error + http.Response) * World;
  time_Now : World -> Time * World }.

(** Computations that act on the world. *)
Definition M (World A : Type) : Type := World -> A * World.

Definition ret {World A : Type} (a : A) : M World A := fun w => (a, w).

Definition bind {World A B : Type} (c : M World A) (k : A -> M World B)
    : M World B :=
  fun w => let '(a, w1) := c w in k a w1.

Notation "x <- c ;; k" := (bind c (fun x => k))
  (at level 61, c at next level, right associativity).

Notation "' pat <- c ;; k" := (bind c (fun x => match x with pat => k end))
  (at level 61, pat pattern, c at next level, right associativity).

Section Engine.

Context {World : Type} `{Platform World}.

(** [http.NewRequest(method, url, nil)] with a valid method: fails when the
    URL does not parse. *)
Definition NewRequest (method url : string) : error + http.Request :=
  match url_Parse url with
  | Some err => inl err
  | None => inr {| http.Method := method; http.URL := url; http.Headers := [] |}
  end.

(** The three [req.Header.Set] calls both client functions make. *)
Definition setHeaders (token : string) (req : http.Request) : http.Request :=
  let h1 := http.Header_Set "Authorization"
              (fmt.Sprintf "Bearer %s" [token]) (http.Headers req) in
  let h2 := http.Header_Set "Accept" "application/vnd.github+json" h1 in
  let h3 := http.Header_Set "X-GitHub-Api-Version" "2022-11-28" h2 in
  {| http.Method := http.Method req; http.URL := http.URL req;
     http.Headers := h3 |}.

(* ------------------------------------------------------------------ *)
(** ** GitHub client                                                   *)
(* ------------------------------------------------------------------ *)

(** [GetRepos] of the source; [nil] slices are empty lists. *)
Definition GetRepos (githubURL org token : string)
    : M World (list Repo * option error) :=
  let url := buildAPIURL githubURL (fmt.Sprintf "orgs/%s/repos" [org]) in
  match NewRequest "GET" url with
  | inl err => ret ([], Some err)
  | inr req =>
      resp <- client_Do (setHeaders token req) ;;
      match resp with
      | inl err => ret ([], Some err)
      | inr resp =>
          if negb (http.StatusCode resp =? http.StatusOK)%Z then
            ret ([], Some (Errorf (fmt.Sprintf "error fetching repos: %s"
                                     [http.Status resp])))
          else
            let '(repos, err) :=
              Decode store_Repos (http.Body_ resp) json.nil_slice in
            match err with
            | Some err => ret ([], Some err)
            | None => ret (json.elems repos, None)
            end
      end
  end.

(** [GetWorkflowRuns] of the source. *)
Definition GetWorkflowRuns (githubURL repo token : string)
    : M World (list WorkflowRun * option error) :=
  let url :=
    buildAPIURL githubURL (fmt.Sprintf "repos/%s/actions/runs" [repo]) in
  match NewRequest "GET" url with
  | inl err => ret ([], Some err)
  | inr req =>
      resp <- client_Do (setHeaders token req) ;;
      match resp with
      | inl err => ret ([], Some err)
      | inr resp =>
          if negb (http.StatusCode resp =? http.StatusOK)%Z then
            ret ([], Some (Errorf
                             (fmt.Sprintf "error fetching workflow runs: %s"
                                [http.Status resp])))
          else
            let '(workflowRuns, err) :=
              Decode store_workflowRuns (http.Body_ resp) json.nil_slice in
            match err with
            | Some err => ret ([], Some err)
            | None => ret (json.elems workflowRuns, None)
            end
      end
  end.

(* ------------------------------------------------------------------ *)
(** ** Aggregator                                                      *)
(* ------------------------------------------------------------------ *)

(** The inner loop of [CountQueuedJobs]: [totalQueuedJobs++] for every run
    whose status is ["queued"]. *)
Fixpoint countRuns (workflowRuns : list WorkflowRun) (totalQueuedJobs : Z)
    : Z :=
  match workflowRuns with
  | [] => totalQueuedJobs
  | run :: rest =>
      if Status run =? "queued"
      then countRuns rest (wrap_int (totalQueuedJobs + 1))
      else countRuns rest totalQueuedJobs
  end.

(** The outer loop: one [GetWorkflowRuns] per repository, in order; the
    first error ends the function with [0, err]. *)
Fixpoint countRepos (githubURL token : string) (repos : list Repo)
    (totalQueuedJobs : Z) : M World (Z * option error) :=
  match repos with
  | [] => ret (totalQueuedJobs, None)
  | repo :: rest =>
      '(workflowRuns, err) <- GetWorkflowRuns githubURL (FullName repo) token ;;
      match err with
      | Some err => ret (0%Z, Some err)
      | None =>
          countRepos githubURL token rest
            (countRuns workflowRuns totalQueuedJobs)
      end
  end.

(** [CountQueuedJobs] of the source. *)
Definition CountQueuedJobs (githubURL org token : string)
    : M World (Z * option error) :=
  '(repos, err) <- GetRepos githubURL org token ;;
  match err with
  | Some err => ret (0%Z, Some err)
  | None => countRepos githubURL token repos 0%Z
  end.

End Engine.

(* ================================================================== *)
(** * TTL cache and request handler                                    *)
(* ================================================================== *)

(** The environment variables the handler reads with [os.Getenv]. *)
Record Env : Type := {
  GITHUB_URL : string;
  GITHUB_ORGANIZATION : string;
  GITHUB_TOKEN : string }.

(** The package-level variables [cachedJobs], [lastUpdateTime] and
    [cacheTimeout], with one ghost field that is not in the program:
    [crawls] counts the calls of [CountQueuedJobs] made so far. *)
Record Globals : Type := {
  cachedJobs : Z;
  lastUpdateTime : Time;
  cacheTimeout : Duration;
  crawls : nat }.

(** [time.Duration(timeout) * time.Second] of [main], for the number of
    seconds [timeout] read from the environment (60 by default). *)
Definition cacheTimeout_of (timeout : Z) : Duration :=
  wrap_int (timeout * Second).

(** The variables when [main] has set the timeout. *)
Definition initially (timeout : Duration) : Globals :=
  {| cachedJobs := 0; lastUpdateTime := zeroTime; cacheTimeout := timeout;
     crawls := 0 |}.

(** What the handler writes to its [http.ResponseWriter]. *)
Inductive Written : Type :=
| WroteJSON (queued_jobs : Z)
    (* 200, Content-Type: application/json, {"queued_jobs": n} *)
| WroteError (err : error) (code : Z).
    (* http.Error(w, "error counting queued jobs: <err>", code) *)

(** The values a [time.Duration] can take. *)
Definition isDuration (d : Z) : Prop := (minDuration <= d <= maxDuration)%Z.

(** The two states of the cache entry, in the specification's words. *)
Definition Fresh (now computedAt : Time) (ttl : Duration) : Prop :=
  (now - computedAt < ttl)%Z.

Definition Stale (now computedAt : Time) (ttl : Duration) : Prop :=
  (ttl <= now - computedAt)%Z.

Section Cache.

Context {World : Type} `{Platform World}.

(** [time.Since(t)] is [time.Now().Sub(t)]. *)
Definition time_Since (t : Time) : M World Duration :=
  now <- time_Now ;; ret (Time_Sub now t).

(** Ghost step: one more call of [CountQueuedJobs]. *)
Definition noteCrawl (g : Globals) : Globals :=
  {| cachedJobs := cachedJobs g; lastUpdateTime := lastUpdateTime g;
     cacheTimeout := cacheTimeout g; crawls := S (crawls g) |}.

(** The base URL the handler works with: [GITHUB_URL], or the public
    origin when it is empty. *)
Definition githubURL_of (env : Env) : string :=
  if GITHUB_URL env =? "" then "https://api.github.com" else GITHUB_URL env.

(** [QueuedJobsHandler] of the source, from [cacheLock.Lock()] to the
    deferred [cacheLock.Unlock()]: what one caller does while it holds the
    lock. *)
Definition QueuedJobsHandler (env : Env) (g : Globals)
    : M World (Written * Globals) :=
  let githubURL := githubURL_of env in
  let org := GITHUB_ORGANIZATION env in
  let token := GITHUB_TOKEN env in
  since <- time_Since (lastUpdateTime g) ;;
  if (since <? cacheTimeout g)%Z then
    ret (WroteJSON (cachedJobs g), g)
  else
    let g := noteCrawl g in
    '(queuedJobs, err) <- CountQueuedJobs githubURL org token ;;
    match err with
    | Some err =>
        ret (WroteError err http.StatusInternalServerError, g)
    | None =>
        now <- time_Now ;;
        ret (WroteJSON queuedJobs,
             {| cachedJobs := queuedJobs;
                lastUpdateTime := now;
                cacheTimeout := cacheTimeout g;
                crawls := crawls g |})
    end.

(** Calls served one after the other; [w] in [arrivals] is the state of
    the world when the call arrives. *)
Fixpoint serve (env : Env) (arrivals : list World) (g : Globals)
    : list Written * Globals :=
  match arrivals with
  | [] => ([], g)
  | w :: rest =>
      let '((x, g1), _) := QueuedJobsHandler env g w in
      let '(xs, g2) := serve env rest g1 in
      (x :: xs, g2)
  end.

(* ------------------------------------------------------------------ *)
(** ** What the aggregator is compared with                            *)
(* ------------------------------------------------------------------ *)

(** The runs of [runs] whose status is exactly ["queued"]. *)
Definition queued (runs : list WorkflowRun) : nat :=
  List.length (filter (fun run => Status run =? "queued") runs).

(** The total over the run lists of all repositories. *)
Definition queuedTotal (rss : list (list WorkflowRun)) : nat :=
  list_sum (map queued rss).

(** [Crawled url token repos w rss w']: from the world [w], listing the
    workflow runs of [repos] one after the other succeeds for each, returns
    the run lists [rss] and leaves the world [w']. *)
Inductive Crawled (githubURL token : string)
    : list Repo -> World -> list (list WorkflowRun) -> World -> Prop :=
| Crawled_nil (w : World) : Crawled githubURL token [] w [] w
| Crawled_cons (repo : Repo) (repos : list Repo) (runs : list WorkflowRun)
    (rss : list (list WorkflowRun)) (w w1 w2 : World) :
    GetWorkflowRuns githubURL (FullName repo) token w = ((runs, None), w1) ->
    Crawled githubURL token repos w1 rss w2 ->
    Crawled githubURL token (repo :: repos) w (runs :: rss) w2.

(* ------------------------------------------------------------------ *)
(** ** Concurrent callers                                              *)
(* ------------------------------------------------------------------ *)

(** Where a goroutine running the handler stands. *)
Inductive Goroutine : Type :=
| Arrived                 (* has not passed [cacheLock.Lock()] *)
| Entered                 (* holds the lock, body not run yet *)
| Replied (x : Written)   (* body run, deferred [Unlock] pending *)
| Returned (x : Written). (* lock released *)

(** The process: its variables, the world, the mutex and the callers. *)
Record System : Type := {
  vars : Globals;
  world : World;
  locked : bool;
  callers : nat -> Goroutine }.

Definition upd (f : nat -> Goroutine) (i : nat) (x : Goroutine)
    : nat -> Goroutine :=
  fun j => if (j =? i)%nat then x else f j.

(** One step of one caller.  [Lock] passes only when the mutex is free. *)
Inductive step (env : Env) : System -> System -> Prop :=
| step_Lock (s : System) (i : nat) :
    callers s i = Arrived ->
    locked s = false ->
    step env s {| vars := vars s; world := world s; locked := true;
                  callers := upd (callers s) i Entered |}
| step_body (s : System) (i : nat) (x : Written) (g : Globals) (w : World) :
    callers s i = Entered ->
    QueuedJobsHandler env (vars s) (world s) = ((x, g), w) ->
    step env s {| vars := g; world := w; locked := locked s;
                  callers := upd (callers s) i (Replied x) |}
| step_Unlock (s : System) (i : nat) (x : Written) :
    callers s i = Replied x ->
    step env s {| vars := vars s; world := world s; locked := false;
                  callers := upd (callers s) i (Returned x) |}.

(** Executions: any interleaving of the callers' steps. *)
Inductive steps (env : Env) (s0 : System) : System -> Prop :=
| steps_refl : steps env s0 s0
| steps_step (s s' : System) :
    steps env s0 s -> step env s s' -> steps env s0 s'.

(** All callers arrive while nobody holds the lock. *)
Definition arrival (g : Globals) (w : World) : System :=
  {| vars := g; world := w; locked := false; callers := fun _ => Arrived |}.

Definition inside (c : Goroutine) : bool :=
  match c with
  | Entered | Replied _ => true
  | Arrived | Returned _ => false
  end.

(** The world after [m] further readings of the clock. *)
Fixpoint readings (m : nat) (w : World) : World :=
  match m with
  | O => w
  | S m' => readings m' (snd (time_Now w))
  end.

(** The variables after the one recomputation that found [k] at time [T]. *)
Definition refreshed (g0 : Globals) (k : Z) (T : Time) : Globals :=
  {| cachedJobs := k; lastUpdateTime := T; cacheTimeout := cacheTimeout g0;
     crawls := S (crawls g0) |}.

(** At most one caller is between [Lock] and [Unlock]: none when the
    mutex is free, one when it is held. *)
Definition exclusive (s : System) : Prop :=
  (forall i j : nat,
      inside (callers s i) = true -> inside (callers s j) = true -> i = j)
  /\ (locked s = false -> forall i : nat, inside (callers s i) = false)
  /\ (locked s = true -> exists i : nat, inside (callers s i) = true).

(** Executions again, with the number of times the handler body has been
    run in them. *)
Inductive execution (env : Env) (s0 : System) : nat -> System -> Prop :=
| execution_refl : execution env s0 0 s0
| execution_Lock (n : nat) (s : System) (i : nat) :
    execution env s0 n s ->
    callers s i = Arrived ->
    locked s = false ->
    execution env s0 n
      {| vars := vars s; world := world s; locked := true;
         callers := upd (callers s) i Entered |}
| execution_body (n : nat) (s : System) (i : nat) (x : Written)
    (g : Globals) (w : World) :
    execution env s0 n s ->
    callers s i = Entered ->
    QueuedJobsHandler env (vars s) (world s) = ((x, g), w) ->
    execution env s0 (S n)
      {| vars := g; world := w; locked := locked s;
         callers := upd (callers s) i (Replied x) |}
| execution_Unlock (n : nat) (s : System) (i : nat) (x : Written) :
    execution env s0 n s ->
    callers s i = Replied x ->
    execution env s0 n
      {| vars := vars s; world := world s; locked := false;
         callers := upd (callers s) i (Returned x) |}.

(** After a recomputation that left the world [w1] and stored the time
    read there, the caller that runs the body as the [m]-th after it
    reads the clock in the world [readings m _]: not before the stored
    time, and less than the timeout after it. *)
Definition within_ttl (g0 : Globals) (w1 : World) (m : nat) : Prop :=
  (fst (time_Now w1)
   <= fst (time_Now (readings m (snd (time_Now w1)))))%Z
  /\ Fresh (fst (time_Now (readings m (snd (time_Now w1)))))
       (fst (time_Now w1)) (cacheTimeout g0).

(** What holds after [n] runs of the body when the first crawl, started
    from the variables [g0] in the world [w0], finds [k] and leaves the
    world [w1], and the later callers are within the timeout: before the
    first run nobody has answered; after it the entry carries [k] and
    everybody who ran the body answered [k]. *)
Definition carried (g0 : Globals) (w0 w1 : World) (k : Z) (n : nat)
    (s : System) : Prop :=
  match n with
  | O =>
      vars s = g0 /\ world s = w0
      /\ forall i : nat, callers s i = Arrived \/ callers s i = Entered
  | S m =>
      vars s = refreshed g0 k (fst (time_Now w1))
      /\ world s = readings m (snd (time_Now w1))
      /\ forall i : nat,
           callers s i = Arrived \/ callers s i = Entered
           \/ callers s i = Replied (WroteJSON k)
           \/ callers s i = Returned (WroteJSON k)
  end.

(** What holds after [n] runs of the body when the first crawl fails and
    leaves the world [w1]: after one run nothing is stored, after two the
    crawl has been made again. *)
Definition retried (g0 : Globals) (w0 w1 : World) (n : nat) (s : System)
    : Prop :=
  match n with
  | O => vars s = g0 /\ world s = w0
  | S O => vars s = noteCrawl g0 /\ world s = w1
  | S (S _) => (crawls g0 + 2 <= crawls (vars s))%nat
  end.

End Cache.

(* ================================================================== *)
(** * A scripted upstream, to run the program on                       *)
(* ================================================================== *)

Module fake.

(** The clock and the URLs requested so far, newest first. *)
Record World : Type := { clock : Time; sent : list string }.

(** What the upstream answers, by URL. *)
Definition Site : Type := list (string * (error + http.Response)).

Definition ok (j : json.Value) : error + http.Response :=
  inr {| http.StatusCode := 200; http.Status := "200 OK";
         http.Body_ := Document j |}.

Definition notFound : error + http.Response :=
  inr {| http.StatusCode := 404; http.Status := "404 Not Found";
         http.Body_ :=
           Document (json.Object [("message", json.Str "Not Found")]) |}.

Fixpoint answer (site : Site) (url : string) : error + http.Response :=
  match site with
  | [] => notFound
  | (u, r) :: rest => if u =? url then r else answer rest url
  end.

(** A round trip takes one second; reading the clock takes no time. *)
Definition Do (site : Site) (req : http.Request) (w : World)
    : (error + http.Response) * World :=
  (answer site (http.URL req),
   {| clock := (clock w + Second)%Z; sent := http.URL req :: sent w |}).

Definition Now (w : World) : Time * World := (clock w, w).

(** A clock that goes on: every reading takes a second. *)
Definition Tick (w : World) : Time * World :=
  (clock w, {| clock := (clock w + Second)%Z; sent := sent w |}).

#[export] Instance platform (site : Site) : Platform World :=
  {| url_Parse := fun _ => None; client_Do := Do site; time_Now := Now |}.

(** The same upstream under the clock that goes on. *)
Definition ticking (site : Site) : Platform World :=
  {| url_Parse := fun _ => None; client_Do := Do site; time_Now := Tick |}.

Definition repo (name : string) : json.Value :=
  json.Object [("id", json.Number "1"); ("full_name", json.Str name)].

Definition run (status : string) : json.Value :=
  json.Object [("id", json.Number "7"); ("status", json.Str status)].

Definition runs (statuses : list string) : json.Value :=
  json.Object [("total_count", json.Number "2");
               ("workflow_runs", json.Array (map run statuses))].

(** Organization [acme] with repositories A (queued, completed) and
    B (queued, queued). *)
Definition acme : Site :=
  [ ("https://api.github.com/orgs/acme/repos",
     ok (json.Array [repo "acme/A"; repo "acme/B"]));
    ("https://api.github.com/repos/acme/A/actions/runs",
     ok (runs ["queued"; "completed"]));
    ("https://api.github.com/repos/acme/B/actions/runs",
     ok (runs ["queued"; "queued"])) ].

(** The same organization when the runs of B cannot be listed. *)
Definition acme_B_down : Site :=
  [ ("https://api.github.com/orgs/acme/repos",
     ok (json.Array [repo "acme/A"; repo "acme/B"]));
    ("https://api.github.com/repos/acme/A/actions/runs",
     ok (runs ["queued"; "completed"])) ].

(** An organization without repositories. *)
Definition empty_org : Site :=
  [ ("https://api.github.com/orgs/acme/repos", ok (json.Array [])) ].

(** A repository whose listing has [null] for its runs. *)
Definition null_runs : Site :=
  [ ("https://api.github.com/repos/acme/A/actions/runs",
     ok (json.Object [("total_count", json.Number "0");
                      ("workflow_runs", json.Null)])) ].

(** A listing without a member named [workflow_runs], but with one whose
    name differs from it by case only. *)
Definition cased_runs : Site :=
  [ ("https://api.github.com/repos/acme/A/actions/runs",
     ok (json.Object [("Workflow_Runs", json.Number "1")])) ].

(** An upstream that answers nothing. *)
Definition down : Site := [].

Definition env : Env :=
  {| GITHUB_URL := ""; GITHUB_ORGANIZATION := "acme"; GITHUB_TOKEN := "t" |}.

(** A wall clock of today, in nanoseconds since the zero time. *)
Definition today : Time := (63900000000 * Second)%Z.

Definition start : World := {| clock := today; sent := [] |}.

(** The variables at process start, with the default timeout. *)
Definition cold : Globals := initially (60 * Second)%Z.

(** The variables at process start when the timeout is set to 0. *)
Definition no_ttl : Globals := initially 0%Z.

(** Ten seconds later. *)
Definition later : World :=
  {| clock := (today + 10 * Second)%Z; sent := [] |}.

(** The variables three seconds after [today], a count of 3 just stored. *)
Definition warm : Globals :=
  {| cachedJobs := 3; lastUpdateTime := (today + 3 * Second)%Z;
     cacheTimeout := (60 * Second)%Z; crawls := 1 |}.

(** The variables when the entry reaches the age of the timeout at
    [today]. *)
Definition expiring : Globals :=
  {| cachedJobs := 0; lastUpdateTime := (today - 60 * Second)%Z;
     cacheTimeout := (60 * Second)%Z; crawls := 0 |}.

End fake.

(* ================================================================== *)
(** * The rest of the program: [main], and what the client sends       *)
(* ================================================================== *)

From Stdlib Require DecimalString DecimalPos DecimalN Permutation.

Module strconv.

Definition isDigit (c : ascii) : bool :=
  (48 <=? nat_of_ascii c)%nat && (nat_of_ascii c <=? 57)%nat.

(** The value of a string of decimal digits, [None] when a byte is not a
    digit. *)
Fixpoint digits (s : string) (acc : Z) : option Z :=
  match s with
  | EmptyString => Some acc
  | String c rest =>
      if isDigit c
      then digits rest (acc * 10 + Z.of_nat (nat_of_ascii c - 48))%Z
      else None
  end.

(** [strconv.Atoi]: an optional sign and at least one decimal digit, the
    value within [int64]; [None] stands for its syntax and range errors,
    which the program does not tell apart. *)
Definition Atoi (s : string) : option Z :=
  match s with
  | EmptyString => None
  | String c rest =>
      let neg := (c =? "-")%char in
      let body := if (c =? "-")%char || (c =? "+")%char then rest else s in
      match body with
      | EmptyString => None
      | _ =>
          match digits body 0 with
          | None => None
          | Some v =>
              let n := if neg then (- v)%Z else v in
              if (MinInt <=? n)%Z && (n <=? MaxInt)%Z then Some n else None
          end
      end
  end.

End strconv.

(** The timeout [main] sets from the value of
    [GITHUB_RUNNER_SCALER_CACHE_TIMEOUT]: 60 seconds when the variable is
    empty or [Atoi] rejects it. *)
Definition main_cacheTimeout (value : string) : Duration :=
  let timeoutStr := if value =? "" then "60" else value in
  let timeout :=
    match strconv.Atoi timeoutStr with
    | Some timeout => timeout
    | None => 60%Z
    end in
  cacheTimeout_of timeout.

(** The address [main] listens on, from the value of [PORT]. *)
Definition main_addr (value : string) : string :=
  let port := if value =? "" then "8080" else value in
  ":" ++ port.

(** The decimal numeral of a natural number. *)
Definition decimal (n : N) : string :=
  DecimalString.NilEmpty.string_of_uint (N.to_uint n).

(** The two URLs of the client, and the request it builds for a URL. *)
Definition reposURL (githubURL org : string) : string :=
  buildAPIURL githubURL (fmt.Sprintf "orgs/%s/repos" [org]).

Definition runsURL (githubURL repo : string) : string :=
  buildAPIURL githubURL (fmt.Sprintf "repos/%s/actions/runs" [repo]).

Definition request (token url : string) : http.Request :=
  setHeaders token
    {| http.Method := "GET"; http.URL := url; http.Headers := [] |}.

(** A platform that also records every request given to [client.Do],
    newest first, and otherwise behaves as the platform it wraps. *)
Definition logged {World : Type} (P : Platform World)
    : Platform (World * list http.Request) :=
  {| url_Parse := @url_Parse World P;
     client_Do := fun req wl =>
       (fst (@client_Do World P req (fst wl)),
        (snd (@client_Do World P req (fst wl)), req :: snd wl));
     time_Now := fun wl =>
       (fst (@time_Now World P (fst wl)),
        (snd (@time_Now World P (fst wl)), snd wl)) |}.

(** What every request of the program looks like when it is handed to
    [client.Do]: the method, and the whole of [req.Header], under the keys
    [Header.Set] stores (its canonical form of [X-GitHub-Api-Version] is
    [X-Github-Api-Version]). *)
Definition wellFormed (token : string) (req : http.Request) : Prop :=
  http.Method req = "GET"
  /\ http.Headers req
     = [("X-Github-Api-Version", "2022-11-28");
        ("Accept", "application/vnd.github+json");
        ("Authorization", "Bearer " ++ token)].

(** Among the members of a JSON object, [(field, v)] is the one member the
    decoder binds to [field]. *)
Definition has_field (field : string) (v : json.Value)
    (members : list (string * json.Value)) : Prop :=
  exists pre post,
    members = (pre ++ (field, v) :: post)%list
    /\ forall key j, In (key, j) (pre ++ post)%list ->
                     json.binds field key = false.

(** A JSON object that has [full_name] (resp. [status]) as a string. *)
Definition repoObject (name : string) (j : json.Value) : Prop :=
  exists members,
    j = json.Object members /\ has_field "full_name" (json.Str name) members.

Definition runObject (status : string) (j : json.Value) : Prop :=
  exists members,
    j = json.Object members /\ has_field "status" (json.Str status) members.

(** An upstream that answers the listing of repositories with status 200
    and an error message object. *)
Definition messaged : fake.Site :=
  [ ("https://api.github.com/orgs/acme/repos",
     fake.ok (json.Object [("message", json.Str "Not Found")])) ].

(** The variables just after a count of 3 was stored at [fake.today],
    the timeout being 0. *)
Definition switched_off : Globals :=
  {| cachedJobs := 3%Z; lastUpdateTime := fake.today; cacheTimeout := 0%Z;
     crawls := 1 |}.

(** An upstream that cannot be reached. *)
Definition unreachable : fake.Site :=
  [ ("https://api.github.com/orgs/acme/repos",
     inl (LibraryError "dial tcp: connection refused")) ].

(** An upstream that answers the listing of runs with a bare array. *)
Definition bare_array : fake.Site :=
  [ ("https://api.github.com/repos/acme/A/actions/runs",
     fake.ok (json.Array [fake.run "queued"])) ].
(* ------------------------------------------------------------------ *)
(** ** Lemmas on byte strings                                          *)
(* ------------------------------------------------------------------ *)

Section StringFacts.

Lemma append_nil_r (s : string) : s ++ "" = s.
Proof. induction s as [|c s IH]; simpl; [reflexivity | now rewrite IH]. Qed.

Lemma append_assoc (s t u : string) : (s ++ t) ++ u = s ++ (t ++ u).
Proof. induction s as [|c s IH]; simpl; [reflexivity | now rewrite IH]. Qed.

Lemma len_append (s t : string) :
  len (s ++ t) = (len s + len t)%nat.
Proof. induction s as [|c s IH]; simpl; [reflexivity | now rewrite IH]. Qed.

Lemma substring_0_0 (s : string) : substring 0 0 s = "".
Proof. destruct s; reflexivity. Qed.

Lemma substring_all (s : string) : substring 0 (len s) s = s.
Proof. induction s as [|c s IH]; simpl; [reflexivity | now rewrite IH]. Qed.

Lemma substring_head (s t : string) : substring 0 (len s) (s ++ t) = s.
Proof.
  induction s as [|c s IH]; simpl.
  - apply substring_0_0.
  - now rewrite IH.
Qed.

Lemma substring_tail (s t : string) :
  substring (len s) (len t) (s ++ t) = t.
Proof.
  induction s as [|c s IH]; simpl.
  - apply substring_all.
  - exact IH.
Qed.

End StringFacts.

(* ------------------------------------------------------------------ *)
(** ** What [HasPrefix], [HasSuffix] and [TrimSuffix] compute          *)
(* ------------------------------------------------------------------ *)

Section GoStrings.

Lemma substring_split (s : string) (n : nat) :
  (n <= len s)%nat -> s = substring 0 n s ++ substring n (len s - n) s.
Proof.
  revert n; induction s as [|c s IH]; intros n Hn; simpl in *.
  - destruct n; reflexivity.
  - destruct n as [|n]; simpl.
    + now rewrite substring_all.
    + f_equal. apply IH. lia.
Qed.

Lemma HasPrefix_app (p rest : string) : strings.HasPrefix (p ++ rest) p = true.
Proof.
  unfold strings.HasPrefix, strings.slice.
  rewrite Nat.sub_0_r, substring_head, String.eqb_refl, len_append.
  rewrite andb_true_r. apply Nat.leb_le. lia.
Qed.

Lemma HasPrefix_inv (s p : string) :
  strings.HasPrefix s p = true -> exists rest, s = p ++ rest.
Proof.
  unfold strings.HasPrefix, strings.slice. rewrite Nat.sub_0_r.
  intros H. apply andb_true_iff in H as [Hlen Heq].
  apply Nat.leb_le in Hlen. apply String.eqb_eq in Heq.
  exists (substring (len p) (len s - len p) s).
  rewrite <- Heq at 1. now apply substring_split.
Qed.

Lemma HasSuffix_app (stem suffix : string) :
  strings.HasSuffix (stem ++ suffix) suffix = true.
Proof.
  unfold strings.HasSuffix, strings.slice. rewrite len_append.
  replace (len stem + len suffix - len suffix)%nat with (len stem) by lia.
  replace (len stem + len suffix - len stem)%nat with (len suffix) by lia.
  rewrite substring_tail, String.eqb_refl, andb_true_r.
  apply Nat.leb_le. lia.
Qed.

Lemma HasSuffix_inv (s suffix : string) :
  strings.HasSuffix s suffix = true -> exists stem, s = stem ++ suffix.
Proof.
  unfold strings.HasSuffix, strings.slice.
  intros H. apply andb_true_iff in H as [Hlen Heq].
  apply Nat.leb_le in Hlen. apply String.eqb_eq in Heq.
  exists (substring 0 (len s - len suffix) s).
  rewrite <- Heq at 2. apply substring_split. lia.
Qed.

Lemma TrimSuffix_app (stem suffix : string) :
  strings.TrimSuffix (stem ++ suffix) suffix = stem.
Proof.
  unfold strings.TrimSuffix. rewrite HasSuffix_app.
  unfold strings.slice. rewrite len_append, Nat.sub_0_r.
  replace (len stem + len suffix - len suffix)%nat with (len stem) by lia.
  apply substring_head.
Qed.

Lemma TrimSuffix_none (s suffix : string) :
  strings.HasSuffix s suffix = false -> strings.TrimSuffix s suffix = s.
Proof. unfold strings.TrimSuffix. now intros ->. Qed.

(** [trimTrailingSlash] drops one final slash and nothing else. *)
Lemma trimTrailingSlash_snoc (stem : string) :
  trimTrailingSlash (stem ++ "/") = stem.
Proof.
  induction stem as [|c stem IH]; [reflexivity|].
  simpl. rewrite IH. destruct stem; reflexivity.
Qed.

Lemma HasSuffix_slash_cons (c d : ascii) (r : string) :
  strings.HasSuffix (String c (String d r)) "/"
  = strings.HasSuffix (String d r) "/".
Proof.
  unfold strings.HasSuffix, strings.slice. simpl len.
  replace (S (S (len r)) - 1)%nat with (S (len r)) by lia.
  replace (S (S (len r)) - S (len r))%nat with 1%nat by lia.
  replace (S (len r) - 1)%nat with (len r) by lia.
  replace (S (len r) - len r)%nat with 1%nat by lia.
  reflexivity.
Qed.

Lemma trimTrailingSlash_none (s : string) :
  strings.HasSuffix s "/" = false -> trimTrailingSlash s = s.
Proof.
  induction s as [|c s IH]; [reflexivity|].
  destruct s as [|d r].
  - unfold strings.HasSuffix, strings.slice. simpl.
    destruct (Ascii.eqb_spec c "/") as [->|Hc]; [discriminate|].
    now destruct (Ascii.eqb c "/").
  - rewrite HasSuffix_slash_cons. intros H.
    change (String c (trimTrailingSlash (String d r)) = String c (String d r)).
    now rewrite IH.
Qed.

(** Go's [TrimSuffix(s, "/")] is the specification's [trimTrailingSlash]. *)
Lemma TrimSuffix_slash (s : string) :
  strings.TrimSuffix s "/" = trimTrailingSlash s.
Proof.
  destruct (strings.HasSuffix s "/") eqn:E.
  - apply HasSuffix_inv in E as [stem ->].
    now rewrite TrimSuffix_app, trimTrailingSlash_snoc.
  - now rewrite TrimSuffix_none, trimTrailingSlash_none.
Qed.

Lemma Sprintf_public (a b : string) : fmt.Sprintf "%s/%s" [a; b] = a ++ "/" ++ b.
Proof. simpl. now rewrite append_nil_r. Qed.

Lemma Sprintf_enterprise (a b : string) :
  fmt.Sprintf "%s/api/v3/%s" [a; b] = a ++ "/api/v3/" ++ b.
Proof. simpl. now rewrite append_nil_r. Qed.

Lemma buildAPIURL_join (baseURL endpoint : string) :
  buildAPIURL baseURL endpoint
  = strings.TrimSuffix baseURL "/" ++ separator baseURL ++ endpoint.
Proof.
  unfold buildAPIURL, separator.
  destruct (strings.HasPrefix baseURL "https://api.github.com").
  - apply Sprintf_public.
  - apply Sprintf_enterprise.
Qed.

End GoStrings.

(* ================================================================== *)
(** * URL builder: the properties                                      *)
(* ================================================================== *)

Section URLBuilder.

Lemma snoc_cases (s : string) :
  s = "" \/ exists pre c, s = pre ++ String c "".
Proof.
  induction s as [|c s [->|(pre & d & ->)]].
  - now left.
  - right. now exists "", c.
  - right. now exists (String c pre), d.
Qed.

Lemma substring_skip (pre u : string) (m : nat) :
  substring (len pre) m (pre ++ u) = substring 0 m u.
Proof. induction pre as [|c pre IH]; simpl; [reflexivity | exact IH]. Qed.

Lemma HasSuffix_slash_snoc (pre : string) (c : ascii) :
  strings.HasSuffix (pre ++ String c "") "/" = (c =? "/")%char.
Proof.
  unfold strings.HasSuffix, strings.slice. rewrite len_append. simpl len.
  replace (len pre + 1 - 1)%nat with (len pre) by lia.
  replace (len pre + 1 - len pre)%nat with 1%nat by lia.
  rewrite substring_skip, Nat.add_1_r. simpl.
  now destruct (c =? "/")%char.
Qed.

Lemma separator_slash (baseURL : string) :
  exists t, separator baseURL = String "/" t.
Proof. unfold separator. destruct (strings.HasPrefix _ _); eauto. Qed.

Lemma join_at_snoc (stem : string) : join_at (stem ++ "/") = len stem.
Proof. unfold join_at. now rewrite TrimSuffix_app. Qed.

End URLBuilder.

(** C6.  When [baseURL] starts with ["https://api.github.com"],
    [buildAPIURL baseURL endpointPath] is [trimTrailingSlash baseURL],
    ["/"] and [endpointPath], without an [/api/v3] segment; otherwise it is
    [trimTrailingSlash baseURL], ["/api/v3/"] and [endpointPath].  Every
    pair of strings has a result: there is no error case. *)
Theorem buildAPIURL_spec (baseURL endpointPath : string) :
  ((exists rest, baseURL = "https://api.github.com" ++ rest) ->
   buildAPIURL baseURL endpointPath
   = trimTrailingSlash baseURL ++ "/" ++ endpointPath)
  /\ (~ (exists rest, baseURL = "https://api.github.com" ++ rest) ->
      buildAPIURL baseURL endpointPath
      = trimTrailingSlash baseURL ++ "/api/v3/" ++ endpointPath)
  /\ exists url, buildAPIURL baseURL endpointPath = url.
Proof.
  rewrite buildAPIURL_join, TrimSuffix_slash. unfold separator.
  repeat split.
  - intros [rest ->]. now rewrite HasPrefix_app.
  - intros Hno.
    destruct (strings.HasPrefix baseURL "https://api.github.com") eqn:E.
    + exfalso. apply Hno. now apply HasPrefix_inv.
    + reflexivity.
  - eauto.
Qed.

Lemma buildAPIURL_spec_witness :
  buildAPIURL "https://api.github.com/" "orgs/acme/repos"
  = "https://api.github.com/orgs/acme/repos"
  /\ buildAPIURL "https://ghe.example.com/" "orgs/acme/repos"
     = "https://ghe.example.com/api/v3/orgs/acme/repos".
Proof.
  split.
  - apply (proj1 (buildAPIURL_spec "https://api.github.com/" "orgs/acme/repos")).
    exists "/". reflexivity.
  - apply (proj1 (proj2 (buildAPIURL_spec "https://ghe.example.com/"
                           "orgs/acme/repos"))).
    intros [rest E]. discriminate E.
Defined.

(** C7, as stated, fails: of the two trailing slashes of
    ["https://ghe.example.com//"] one is left, so the result is not the
    base URL without its trailing slashes followed by separator and path,
    and the slash is doubled at the join point. *)
Lemma buildAPIURL_second_slash_stays :
  strings.HasSuffix "https://ghe.example.com//" "/" = true
  /\ buildAPIURL "https://ghe.example.com//" "orgs/acme/repos"
     = "https://ghe.example.com//api/v3/orgs/acme/repos"
  /\ buildAPIURL "https://ghe.example.com//" "orgs/acme/repos"
     <> trimAllTrailingSlashes "https://ghe.example.com//"
        ++ separator "https://ghe.example.com//" ++ "orgs/acme/repos"
  /\ doubled_slash_at_join "https://ghe.example.com//" "orgs/acme/repos"
     = true.
Proof. repeat split; try reflexivity. intros E. discriminate E. Qed.

(** C7, amended.  For every base URL ending in ["/"], [buildAPIURL] strips
    exactly one trailing slash before it concatenates separator and
    endpoint path; the slash is doubled at the join point exactly when the
    base URL ended in more than one slash, so a base URL with a single
    trailing slash gives no doubled slash. *)
Theorem buildAPIURL_strips_one_slash (stem endpoint : string) :
  buildAPIURL (stem ++ "/") endpoint
  = stem ++ separator (stem ++ "/") ++ endpoint
  /\ doubled_slash_at_join (stem ++ "/") endpoint
     = strings.HasSuffix stem "/".
Proof.
  split.
  - now rewrite buildAPIURL_join, TrimSuffix_app.
  - unfold doubled_slash_at_join.
    rewrite join_at_snoc, buildAPIURL_join, TrimSuffix_app.
    destruct (separator_slash (stem ++ "/")) as [t ->].
    destruct (snoc_cases stem) as [->|(pre & c & ->)]; [reflexivity|].
    rewrite len_append, HasSuffix_slash_snoc. simpl len.
    rewrite Nat.add_1_r, append_assoc, substring_skip. simpl.
    rewrite substring_0_0. simpl.
    now destruct (c =? "/")%char.
Qed.

(* ================================================================== *)
(** * Aggregator: the properties                                       *)
(* ================================================================== *)

Section Aggregator.

Context {World : Type} `{Platform World}.

Lemma wrap_int_small (z : Z) : (MinInt <= z <= MaxInt)%Z -> wrap_int z = z.
Proof.
  unfold wrap_int, MinInt, MaxInt. intros Hz.
  rewrite Z.mod_small; lia.
Qed.

Lemma queued_cons (run : WorkflowRun) (runs : list WorkflowRun) :
  queued (run :: runs)
  = ((if (Status run =? "queued")%string then 1 else 0) + queued runs)%nat.
Proof. unfold queued. simpl. now destruct (Status run =? "queued"). Qed.

(** The inner loop adds the number of queued runs, as long as the sum fits
    an [int]. *)
Lemma countRuns_adds (runs : list WorkflowRun) (acc : Z) :
  (0 <= acc)%Z -> (acc + Z.of_nat (queued runs) <= MaxInt)%Z ->
  countRuns runs acc = (acc + Z.of_nat (queued runs))%Z.
Proof.
  revert acc; induction runs as [|run runs IH]; intros acc Hacc Hfit.
  - unfold queued; simpl. lia.
  - rewrite queued_cons in *. simpl.
    destruct (Status run =? "queued").
    + rewrite wrap_int_small by (unfold MinInt, MaxInt in *; lia).
      rewrite IH; lia.
    + rewrite IH; simpl in *; lia.
Qed.

Lemma queuedTotal_cons (runs : list WorkflowRun)
    (rss : list (list WorkflowRun)) :
  queuedTotal (runs :: rss) = (queued runs + queuedTotal rss)%nat.
Proof. reflexivity. Qed.

(** The outer loop, when every listing succeeds. *)
Lemma countRepos_adds (githubURL token : string) (repos : list Repo)
    (rss : list (list WorkflowRun)) (w w' : World) :
  Crawled githubURL token repos w rss w' ->
  forall acc : Z,
    (0 <= acc)%Z -> (acc + Z.of_nat (queuedTotal rss) <= MaxInt)%Z ->
    countRepos githubURL token repos acc w
    = ((acc + Z.of_nat (queuedTotal rss), None), w')%Z.
Proof.
  induction 1 as [w|repo repos runs rss w w1 w2 Hruns _ IH];
    intros acc Hacc Hfit.
  - unfold queuedTotal; simpl. unfold ret. do 2 f_equal. lia.
  - rewrite queuedTotal_cons in *. simpl. unfold bind at 1. rewrite Hruns.
    rewrite countRuns_adds by lia.
    rewrite IH by lia. do 2 f_equal. lia.
Qed.

(** The outer loop, when a listing fails after the ones before it
    succeeded: whatever was counted is dropped. *)
Lemma countRepos_aborts (githubURL token : string) (pre : list Repo)
    (rss : list (list WorkflowRun)) (w w2 : World) :
  Crawled githubURL token pre w rss w2 ->
  forall (repo : Repo) (post : list Repo) (runs : list WorkflowRun)
         (e : error) (w3 : World) (acc : Z),
    GetWorkflowRuns githubURL (FullName repo) token w2
    = ((runs, Some e), w3) ->
    countRepos githubURL token (pre ++ repo :: post) acc w
    = ((0%Z, Some e), w3).
Proof.
  induction 1 as [w|r repos rs rss w w1 w2 Hruns _ IH];
    intros repo post runs e w3 acc Hfail; simpl; unfold bind at 1.
  - now rewrite Hfail.
  - rewrite Hruns. now apply IH with (runs := runs).
Qed.

Lemma countRepos_error_zero (githubURL token : string) (repos : list Repo) :
  forall (acc n : Z) (e : error) (w w' : World),
    countRepos githubURL token repos acc w = ((n, Some e), w') -> n = 0%Z.
Proof.
  induction repos as [|repo repos IH]; intros acc n e w w'; simpl.
  - unfold ret. intros E. discriminate E.
  - unfold bind at 1.
    destruct (GetWorkflowRuns githubURL (FullName repo) token w)
      as [[runs [err|]] w1].
    + unfold ret. intros E. now inversion E.
    + apply IH.
Qed.

End Aggregator.

(** C1.  When [GetRepos] returns the repositories [repos] and the listings
    of their workflow runs return the run lists [rss], [CountQueuedJobs]
    returns the number of runs, over all repositories, whose status is
    exactly ["queued"] (a number that fits an [int]).  In particular it
    returns 3 for A with runs queued, completed and B with runs queued,
    queued; and 0, without error, for an organization without
    repositories. *)
Theorem CountQueuedJobs_counts_queued {World : Type} `{Platform World}
    (githubURL org token : string) (repos : list Repo)
    (rss : list (list WorkflowRun)) (w w1 w2 : World) :
  GetRepos githubURL org token w = ((repos, None), w1) ->
  Crawled githubURL token repos w1 rss w2 ->
  (Z.of_nat (queuedTotal rss) <= MaxInt)%Z ->
  CountQueuedJobs githubURL org token w
  = ((Z.of_nat (queuedTotal rss), None), w2)
  /\ (map (map Status) rss
      = [["queued"; "completed"]; ["queued"; "queued"]] ->
      CountQueuedJobs githubURL org token w = ((3%Z, None), w2))
  /\ (repos = [] ->
      CountQueuedJobs githubURL org token w = ((0%Z, None), w1)).
Proof.
  intros Hrepos Hcrawl Hfit.
  assert (Hgen : CountQueuedJobs githubURL org token w
                 = ((Z.of_nat (queuedTotal rss), None), w2)).
  { unfold CountQueuedJobs, bind. rewrite Hrepos.
    now rewrite (countRepos_adds _ _ _ _ _ _ Hcrawl) by lia. }
  repeat split.
  - exact Hgen.
  - intros Hrss. rewrite Hgen. do 2 f_equal.
    assert (Hq : forall runs : list WorkflowRun,
               queued runs
               = List.length (filter (fun s => s =? "queued")
                                (map Status runs))).
    { induction runs as [|r runs IH]; [reflexivity|].
      rewrite queued_cons, IH. simpl. now destruct (Status r =? "queued"). }
    unfold queuedTotal. rewrite (map_ext _ _ Hq).
    rewrite <- (map_map (map Status)
                  (fun l => List.length (filter (fun s => s =? "queued") l))).
    now rewrite Hrss.
  - intros ->. inversion Hcrawl; subst. exact Hgen.
Qed.

Lemma CountQueuedJobs_counts_queued_witness :
  fst (@CountQueuedJobs _ (fake.platform fake.acme)
         "https://api.github.com" "acme" "t" fake.start)
  = (3%Z, None).
Proof.
  pose (w1 := snd (@GetRepos _ (fake.platform fake.acme)
                     "https://api.github.com" "acme" "t" fake.start)).
  pose (wA := snd (@GetWorkflowRuns _ (fake.platform fake.acme)
                     "https://api.github.com" "acme/A" "t" w1)).
  pose (wB := snd (@GetWorkflowRuns _ (fake.platform fake.acme)
                     "https://api.github.com" "acme/B" "t" wA)).
  destruct (@CountQueuedJobs_counts_queued _ (fake.platform fake.acme)
              "https://api.github.com" "acme" "t"
              [{| FullName := "acme/A" |}; {| FullName := "acme/B" |}]
              [[{| Status := "queued" |}; {| Status := "completed" |}];
               [{| Status := "queued" |}; {| Status := "queued" |}]]
              fake.start w1 wB) as (_ & Hex & _).
  - reflexivity.
  - apply Crawled_cons with (w1 := wA); [reflexivity|].
    apply Crawled_cons with (w1 := wB); [reflexivity|].
    apply Crawled_nil.
  - unfold MaxInt. simpl. lia.
  - now rewrite Hex.
Defined.

(** C5.  An error of [GetRepos] ends [CountQueuedJobs] with that error.
    Wherever in the list of repositories the listing of workflow runs
    fails, after any number of listings that succeeded, [CountQueuedJobs]
    returns that error with no count: neither the runs counted so far
    nor those of the repositories after the failing one, which are not
    fetched. *)
Theorem CountQueuedJobs_aborts {World : Type} `{Platform World}
    (githubURL org token : string) :
  (forall (repos : list Repo) (e : error) (w w1 : World),
      GetRepos githubURL org token w = ((repos, Some e), w1) ->
      CountQueuedJobs githubURL org token w = ((0%Z, Some e), w1))
  /\ (forall (pre : list Repo) (repo : Repo) (post : list Repo)
             (rss : list (list WorkflowRun)) (runs : list WorkflowRun)
             (e : error) (w w1 w2 w3 : World),
         GetRepos githubURL org token w
         = (((pre ++ repo :: post)%list, None), w1) ->
         Crawled githubURL token pre w1 rss w2 ->
         GetWorkflowRuns githubURL (FullName repo) token w2
         = ((runs, Some e), w3) ->
         CountQueuedJobs githubURL org token w = ((0%Z, Some e), w3)).
Proof.
  split.
  - intros repos e w w1 Hrepos.
    unfold CountQueuedJobs, bind. now rewrite Hrepos.
  - intros pre repo post rss runs e w w1 w2 w3 Hrepos Hcrawl Hfail.
    unfold CountQueuedJobs, bind. rewrite Hrepos.
    now apply countRepos_aborts with (rss := rss) (w2 := w2) (runs := runs).
Qed.

Lemma CountQueuedJobs_aborts_witness :
  fst (@CountQueuedJobs _ (fake.platform fake.down)
         "https://api.github.com" "acme" "t" fake.start)
  = (0%Z, Some (Errorf "error fetching repos: 404 Not Found"))
  /\ fst (@CountQueuedJobs _ (fake.platform fake.acme_B_down)
            "https://api.github.com" "acme" "t" fake.start)
     = (0%Z, Some (Errorf "error fetching workflow runs: 404 Not Found")).
Proof.
  split.
  - pose (w1 := snd (@GetRepos _ (fake.platform fake.down)
                       "https://api.github.com" "acme" "t" fake.start)).
    rewrite (proj1 (@CountQueuedJobs_aborts _ (fake.platform fake.down)
                      "https://api.github.com" "acme" "t")
               [] (Errorf "error fetching repos: 404 Not Found")
               fake.start w1); reflexivity.
  - pose (w1 := snd (@GetRepos _ (fake.platform fake.acme_B_down)
                       "https://api.github.com" "acme" "t" fake.start)).
    pose (wA := snd (@GetWorkflowRuns _ (fake.platform fake.acme_B_down)
                       "https://api.github.com" "acme/A" "t" w1)).
    pose (wB := snd (@GetWorkflowRuns _ (fake.platform fake.acme_B_down)
                       "https://api.github.com" "acme/B" "t" wA)).
    rewrite (proj2 (@CountQueuedJobs_aborts _
                      (fake.platform fake.acme_B_down)
                      "https://api.github.com" "acme" "t")
               [{| FullName := "acme/A" |}] {| FullName := "acme/B" |} []
               [[{| Status := "queued" |}; {| Status := "completed" |}]] []
               (Errorf "error fetching workflow runs: 404 Not Found")
               fake.start w1 wA wB).
    + reflexivity.
    + reflexivity.
    + apply Crawled_cons with (w1 := wA); [reflexivity | apply Crawled_nil].
    + reflexivity.
Defined.

(** C9.  Whenever [CountQueuedJobs] returns an error, from [GetRepos] or
    from any [GetWorkflowRuns], the integer it returns with it is 0. *)
Theorem CountQueuedJobs_error_zero {World : Type} `{Platform World}
    (githubURL org token : string) (w w' : World) (n : Z) (e : error) :
  CountQueuedJobs githubURL org token w = ((n, Some e), w') -> n = 0%Z.
Proof.
  unfold CountQueuedJobs, bind.
  destruct (GetRepos githubURL org token w) as [[repos [err|]] w1].
  - unfold ret. intros E. now inversion E.
  - apply countRepos_error_zero.
Qed.

Lemma CountQueuedJobs_error_zero_witness :
  fst (fst (@CountQueuedJobs _ (fake.platform fake.acme_B_down)
              "https://api.github.com" "acme" "t" fake.start)) = 0%Z.
Proof.
  pose (r := @CountQueuedJobs _ (fake.platform fake.acme_B_down)
               "https://api.github.com" "acme" "t" fake.start).
  apply (@CountQueuedJobs_error_zero _ (fake.platform fake.acme_B_down)
           "https://api.github.com" "acme" "t" fake.start (snd r)
           (fst (fst r))
           (Errorf "error fetching workflow runs: 404 Not Found")).
  reflexivity.
Defined.

(* ================================================================== *)
(** * Decoding the listing of workflow runs                            *)
(* ================================================================== *)

Section Decoding.

(** Members bound to a slice field that are all [null] leave a nil slice
    nil and raise no error. *)
Lemma object_null_members {T : Type} (zero : T)
    (store : json.Value -> json.Dec T) (field : string)
    (members : list (string * json.Value)) (saved : option error) :
  (forall key j, In (key, j) members ->
                 json.binds field key = true -> j = json.Null) ->
  json.object field (json.value_slice zero store) members
    json.nil_slice saved
  = (json.nil_slice, saved).
Proof.
  induction members as [|[key j] members IH]; intros Hnull; simpl.
  - reflexivity.
  - destruct (json.binds field key) eqn:E.
    + rewrite (Hnull key j (or_introl eq_refl) E). simpl.
      apply IH. intros k v Hin. apply Hnull. now right.
    + apply IH. intros k v Hin. apply Hnull. now right.
Qed.

Lemma Decode_null_runs (members : list (string * json.Value)) :
  (forall key j, In (key, j) members ->
                 json.binds "workflow_runs" key = true -> j = json.Null) ->
  Decode store_workflowRuns (Document (json.Object members)) json.nil_slice
  = (json.nil_slice, None).
Proof. intros Hnull. now apply object_null_members. Qed.

End Decoding.

(** C10, as stated, fails: the body [{"Workflow_Runs": 1}] of a 200
    response is a JSON object without a member named [workflow_runs], yet
    the decoder binds its member to the field, whose name it matches
    without regard to case, and [GetWorkflowRuns] returns the type error. *)
Lemma GetWorkflowRuns_binds_by_folded_name :
  fake.answer fake.cased_runs
    "https://api.github.com/repos/acme/A/actions/runs"
  = fake.ok (json.Object [("Workflow_Runs", json.Number "1")])
  /\ ~ In "workflow_runs" (map fst [("Workflow_Runs", json.Number "1")])
  /\ fst (@GetWorkflowRuns _ (fake.platform fake.cased_runs)
            "https://api.github.com" "acme/A" "t" fake.start)
     = ([], Some (UnmarshalTypeError "number")).
Proof.
  repeat split.
  intros [E|[]]. discriminate E.
Qed.

(** C10, amended.  For every 200 response whose body is a JSON object in
    which every member that the decoder binds to the field
    [workflow_runs] (by that name, or by a name that equals it once case
    is folded) is [null], in particular when there is no such member,
    [GetWorkflowRuns] succeeds and returns an empty sequence of runs, and
    the repository adds nothing to the count. *)
Theorem GetWorkflowRuns_without_runs {World : Type} `{Platform World}
    (githubURL repo token : string) (req : http.Request)
    (resp : http.Response) (members : list (string * json.Value))
    (w w1 : World) :
  NewRequest "GET"
    (buildAPIURL githubURL (fmt.Sprintf "repos/%s/actions/runs" [repo]))
  = inr req ->
  client_Do (setHeaders token req) w = (inr resp, w1) ->
  http.StatusCode resp = http.StatusOK ->
  http.Body_ resp = Document (json.Object members) ->
  (forall key j, In (key, j) members ->
                 json.binds "workflow_runs" key = true -> j = json.Null) ->
  GetWorkflowRuns githubURL repo token w = (([], None), w1)
  /\ forall (rest : list Repo) (totalQueuedJobs : Z),
       countRepos githubURL token ({| FullName := repo |} :: rest)
         totalQueuedJobs w
       = countRepos githubURL token rest totalQueuedJobs w1.
Proof.
  intros Hreq Hdo Hcode Hbody Hnull.
  assert (Hget : GetWorkflowRuns githubURL repo token w = (([], None), w1)).
  { unfold GetWorkflowRuns. rewrite Hreq. unfold bind. rewrite Hdo.
    rewrite Hcode, Hbody. simpl negb. cbv iota.
    now rewrite (Decode_null_runs members Hnull). }
  split; [exact Hget|].
  intros rest total. simpl. unfold bind. now rewrite Hget.
Qed.

Lemma GetWorkflowRuns_without_runs_witness :
  @GetWorkflowRuns _ (fake.platform fake.null_runs)
    "https://api.github.com" "acme/A" "t" fake.start
  = (([], None),
     snd (fake.Do fake.null_runs
            {| http.Method := "GET";
               http.URL := "https://api.github.com/repos/acme/A/actions/runs";
               http.Headers := [] |} fake.start)).
Proof.
  refine (proj1 (@GetWorkflowRuns_without_runs _ (fake.platform fake.null_runs)
                   "https://api.github.com" "acme/A" "t"
                   {| http.Method := "GET";
                      http.URL :=
                        "https://api.github.com/repos/acme/A/actions/runs";
                      http.Headers := [] |}
                   {| http.StatusCode := 200; http.Status := "200 OK";
                      http.Body_ :=
                        Document (json.Object
                                    [("total_count", json.Number "0");
                                     ("workflow_runs", json.Null)]) |}
                   [("total_count", json.Number "0");
                    ("workflow_runs", json.Null)]
                   fake.start _ eq_refl eq_refl eq_refl eq_refl _)).
  intros key j [E|[E|[]]] Hb; inversion E; subst.
  - vm_compute in Hb. discriminate Hb.
  - reflexivity.
Defined.

(* ================================================================== *)
(** * TTL cache: the properties                                        *)
(* ================================================================== *)

Section CacheFacts.

Context {World : Type} `{Platform World}.

(** The test [time.Since(lastUpdateTime) < cacheTimeout] against the
    specification's Fresh and Stale. *)
Lemma Sub_fresh (now t : Time) (ttl : Duration) :
  isDuration ttl -> (t <= now)%Z -> Fresh now t ttl ->
  (Time_Sub now t <? ttl)%Z = true.
Proof.
  unfold isDuration, Fresh, Time_Sub, minDuration, maxDuration, MinInt, MaxInt.
  intros Hd Hmono Hf. apply Z.ltb_lt.
  destruct (Z.ltb_spec (2 ^ 63 - 1) (now - t)); [lia|].
  destruct (Z.ltb_spec (now - t) (- 2 ^ 63)); lia.
Qed.

Lemma Sub_stale (now t : Time) (ttl : Duration) :
  isDuration ttl -> Stale now t ttl -> (Time_Sub now t <? ttl)%Z = false.
Proof.
  unfold isDuration, Stale, Time_Sub, minDuration, maxDuration, MinInt, MaxInt.
  intros Hd Hs. apply Z.ltb_ge.
  destruct (Z.ltb_spec (2 ^ 63 - 1) (now - t)); [lia|].
  destruct (Z.ltb_spec (now - t) (- 2 ^ 63)); lia.
Qed.

(** Whatever number of seconds [main] reads, the timeout it sets is a
    [time.Duration]. *)
Lemma cacheTimeout_of_isDuration (timeout : Z) :
  isDuration (cacheTimeout_of timeout).
Proof.
  unfold isDuration, cacheTimeout_of, wrap_int, minDuration, maxDuration,
    MinInt, MaxInt.
  pose proof (Z.mod_pos_bound (timeout * Second + 2 ^ 63) (2 ^ 64) eq_refl).
  lia.
Qed.

Lemma Stale_later (now now' t : Time) (ttl : Duration) :
  (now <= now')%Z -> Stale now t ttl -> Stale now' t ttl.
Proof. unfold Stale. lia. Qed.

(** The handler on a fresh entry. *)
Lemma handler_fresh (env : Env) (g : Globals) (w : World) :
  isDuration (cacheTimeout g) ->
  (lastUpdateTime g <= fst (time_Now w))%Z ->
  Fresh (fst (time_Now w)) (lastUpdateTime g) (cacheTimeout g) ->
  QueuedJobsHandler env g w
  = ((WroteJSON (cachedJobs g), g), snd (time_Now w)).
Proof.
  intros Hd Hmono Hf. unfold QueuedJobsHandler, time_Since, bind.
  destruct (time_Now w) as [now w0]. simpl in *. unfold ret at 1.
  now rewrite (Sub_fresh _ _ _ Hd Hmono Hf).
Qed.

(** The handler on a stale entry, by the outcome of the crawl. *)
Lemma handler_stale (env : Env) (g : Globals) (w : World) :
  isDuration (cacheTimeout g) ->
  Stale (fst (time_Now w)) (lastUpdateTime g) (cacheTimeout g) ->
  QueuedJobsHandler env g w
  = let '((queuedJobs, err), w1) :=
      CountQueuedJobs (githubURL_of env) (GITHUB_ORGANIZATION env)
        (GITHUB_TOKEN env) (snd (time_Now w)) in
    match err with
    | Some err =>
        ((WroteError err http.StatusInternalServerError, noteCrawl g), w1)
    | None =>
        ((WroteJSON queuedJobs,
          {| cachedJobs := queuedJobs; lastUpdateTime := fst (time_Now w1);
             cacheTimeout := cacheTimeout g; crawls := S (crawls g) |}),
         snd (time_Now w1))
    end.
Proof.
  intros Hd Hs. unfold QueuedJobsHandler, time_Since, bind, githubURL_of.
  destruct (time_Now w) as [now w0]. simpl in *. unfold ret at 1.
  rewrite (Sub_stale _ _ _ Hd Hs).
  destruct (CountQueuedJobs _ _ _ w0) as [[n [e|]] w1]; [reflexivity|].
  now destruct (time_Now w1).
Qed.

Lemma handler_stale_crawls (env : Env) (g : Globals) (w : World) :
  isDuration (cacheTimeout g) ->
  Stale (fst (time_Now w)) (lastUpdateTime g) (cacheTimeout g) ->
  crawls (snd (fst (QueuedJobsHandler env g w))) = S (crawls g).
Proof.
  intros Hd Hs. rewrite (handler_stale env g w Hd Hs).
  now destruct (CountQueuedJobs _ _ _ _) as [[n [e|]] w1].
Qed.

End CacheFacts.

(** C3.  A call made while the entry is Fresh, [now - computedAt < ttl],
    returns the stored count and does not call [CountQueuedJobs]: the
    variables, the count of crawls among them, are as before and the world
    has seen a reading of the clock only.  Hence calls that all arrive
    within [ttl] of the recomputation that set the entry all return the
    same count, with no further recomputation. *)
Theorem fresh_get_returns_cached {World : Type} `{Platform World}
    (env : Env) (g : Globals) :
  isDuration (cacheTimeout g) ->
  (forall w : World,
      (lastUpdateTime g <= fst (time_Now w))%Z ->
      Fresh (fst (time_Now w)) (lastUpdateTime g) (cacheTimeout g) ->
      QueuedJobsHandler env g w
      = ((WroteJSON (cachedJobs g), g), snd (time_Now w)))
  /\ (forall arrivals : list World,
         Forall (fun w =>
                   (lastUpdateTime g <= fst (time_Now w))%Z
                   /\ Fresh (fst (time_Now w)) (lastUpdateTime g)
                        (cacheTimeout g)) arrivals ->
         serve env arrivals g
         = (repeat (WroteJSON (cachedJobs g)) (List.length arrivals), g)).
Proof.
  intros Hd. split.
  - intros w. now apply handler_fresh.
  - induction 1 as [|w arrivals [Hmono Hf] _ IH]; [reflexivity|].
    simpl. rewrite (handler_fresh env g w Hd Hmono Hf). now rewrite IH.
Qed.

(** C4.  A call made while the entry is Stale, [now - computedAt >= ttl],
    the instant [now = computedAt + ttl] included, calls
    [CountQueuedJobs]; when that succeeds, the call stores the new count,
    sets [lastUpdateTime] to the time read after the crawl and returns the
    new count. *)
Theorem stale_get_recomputes {World : Type} `{Platform World}
    (env : Env) (g : Globals) (w : World) :
  isDuration (cacheTimeout g) ->
  Stale (fst (time_Now w)) (lastUpdateTime g) (cacheTimeout g) ->
  crawls (snd (fst (QueuedJobsHandler env g w))) = S (crawls g)
  /\ forall (queuedJobs : Z) (w1 : World),
       CountQueuedJobs (githubURL_of env) (GITHUB_ORGANIZATION env)
         (GITHUB_TOKEN env) (snd (time_Now w))
       = ((queuedJobs, None), w1) ->
       QueuedJobsHandler env g w
       = ((WroteJSON queuedJobs,
           {| cachedJobs := queuedJobs;
              lastUpdateTime := fst (time_Now w1);
              cacheTimeout := cacheTimeout g;
              crawls := S (crawls g) |}),
          snd (time_Now w1)).
Proof.
  intros Hd Hs. split.
  - now apply handler_stale_crawls.
  - intros n w1 Hok. now rewrite (handler_stale env g w Hd Hs), Hok.
Qed.

(** C2.  When the recomputation a call makes fails, the call answers with
    the error, and [cachedJobs] and [lastUpdateTime] are as before; a next
    call, whenever the clock has not gone back, finds the entry Stale
    again and calls [CountQueuedJobs] again. *)
Theorem failed_recompute_keeps_entry {World : Type} `{Platform World}
    (env : Env) (g : Globals) (w w1 : World) (n : Z) (e : error) :
  isDuration (cacheTimeout g) ->
  Stale (fst (time_Now w)) (lastUpdateTime g) (cacheTimeout g) ->
  CountQueuedJobs (githubURL_of env) (GITHUB_ORGANIZATION env)
    (GITHUB_TOKEN env) (snd (time_Now w))
  = ((n, Some e), w1) ->
  exists g' : Globals,
    QueuedJobsHandler env g w
    = ((WroteError e http.StatusInternalServerError, g'), w1)
    /\ cachedJobs g' = cachedJobs g
    /\ lastUpdateTime g' = lastUpdateTime g
    /\ forall w2 : World,
         (fst (time_Now w) <= fst (time_Now w2))%Z ->
         Stale (fst (time_Now w2)) (lastUpdateTime g') (cacheTimeout g')
         /\ crawls (snd (fst (QueuedJobsHandler env g' w2))) = S (crawls g').
Proof.
  intros Hd Hs Hfail. exists (noteCrawl g). repeat split.
  - now rewrite (handler_stale env g w Hd Hs), Hfail.
  - now apply Stale_later with (now := fst (time_Now w)).
  - apply handler_stale_crawls; [exact Hd|].
    now apply Stale_later with (now := fst (time_Now w)).
Qed.

Lemma fresh_get_returns_cached_witness :
  @QueuedJobsHandler _ (fake.platform fake.acme) fake.env fake.warm fake.later
  = ((WroteJSON 3, fake.warm), fake.later)
  /\ @serve _ (fake.platform fake.acme) fake.env
       [fake.later; fake.later; fake.later] fake.warm
     = ([WroteJSON 3; WroteJSON 3; WroteJSON 3], fake.warm).
Proof.
  assert (Hd : isDuration (cacheTimeout fake.warm)).
  { unfold isDuration, minDuration, maxDuration, MinInt, MaxInt. simpl. lia. }
  assert (Hw : (lastUpdateTime fake.warm
                <= fst (@time_Now _ (fake.platform fake.acme) fake.later))%Z
               /\ Fresh (fst (@time_Now _ (fake.platform fake.acme) fake.later))
                    (lastUpdateTime fake.warm) (cacheTimeout fake.warm)).
  { unfold Fresh. simpl. lia. }
  destruct (@fresh_get_returns_cached _ (fake.platform fake.acme)
              fake.env fake.warm Hd) as [Hone Hall].
  split.
  - apply (Hone fake.later); apply Hw.
  - apply (Hall [fake.later; fake.later; fake.later]).
    repeat constructor; apply Hw.
Defined.

Lemma stale_get_recomputes_witness :
  fst (@QueuedJobsHandler _ (fake.platform fake.acme) fake.env
         fake.expiring fake.start)
  = (WroteJSON 3,
     {| cachedJobs := 3; lastUpdateTime := (fake.today + 3 * Second)%Z;
        cacheTimeout := (60 * Second)%Z; crawls := 1 |}).
Proof.
  assert (Hd : isDuration (cacheTimeout fake.expiring)).
  { unfold isDuration, minDuration, maxDuration, MinInt, MaxInt. simpl. lia. }
  assert (Hs : Stale (fst (@time_Now _ (fake.platform fake.acme) fake.start))
                 (lastUpdateTime fake.expiring) (cacheTimeout fake.expiring)).
  { unfold Stale. simpl. lia. }
  destruct (@stale_get_recomputes _ (fake.platform fake.acme)
              fake.env fake.expiring fake.start Hd Hs) as [_ Hok].
  rewrite (Hok 3%Z
             (snd (@CountQueuedJobs _ (fake.platform fake.acme)
                     "https://api.github.com" "acme" "t" fake.start))
             eq_refl).
  vm_compute. reflexivity.
Defined.

Lemma failed_recompute_keeps_entry_witness :
  exists g' : Globals,
    fst (@QueuedJobsHandler _ (fake.platform fake.down) fake.env
           fake.cold fake.start)
    = (WroteError (Errorf "error fetching repos: 404 Not Found") 500, g')
    /\ cachedJobs g' = 0%Z
    /\ lastUpdateTime g' = zeroTime.
Proof.
  assert (Hd : isDuration (cacheTimeout fake.cold)).
  { unfold isDuration, minDuration, maxDuration, MinInt, MaxInt. simpl. lia. }
  assert (Hs : Stale (fst (@time_Now _ (fake.platform fake.down) fake.start))
                 (lastUpdateTime fake.cold) (cacheTimeout fake.cold)).
  { unfold Stale. vm_compute. intros E. discriminate E. }
  destruct (@failed_recompute_keeps_entry _ (fake.platform fake.down)
              fake.env fake.cold fake.start
              (snd (@CountQueuedJobs _ (fake.platform fake.down)
                      "https://api.github.com" "acme" "t" fake.start))
              0%Z (Errorf "error fetching repos: 404 Not Found")
              Hd Hs eq_refl) as (g' & Hrun & Hcount & Htime & _).
  exists g'. rewrite Hrun. repeat split; assumption.
Defined.

(* ================================================================== *)
(** * Concurrent callers: the properties                               *)
(* ================================================================== *)

Section SingleFlight.

Context {World : Type} `{Platform World}.

Lemma upd_same (f : nat -> Goroutine) (i : nat) (x : Goroutine) :
  upd f i x i = x.
Proof. unfold upd. now rewrite Nat.eqb_refl. Qed.

Lemma upd_other (f : nat -> Goroutine) (i j : nat) (x : Goroutine) :
  j <> i -> upd f i x j = f j.
Proof. unfold upd. intros Hne. now apply Nat.eqb_neq in Hne as ->. Qed.

Lemma readings_next (m : nat) (w : World) :
  snd (time_Now (readings m w)) = readings (S m) w.
Proof.
  revert w; induction m as [|m IH]; intros w; [reflexivity|].
  simpl. now rewrite IH.
Qed.

Lemma steps_cons (env : Env) (s1 s2 s3 : System) :
  step env s1 s2 -> steps env s2 s3 -> steps env s1 s3.
Proof.
  intros H12 H23. induction H23 as [|s3 s4 _ IH Hlast].
  - eapply steps_step; [apply steps_refl | exact H12].
  - eapply steps_step; [exact IH | exact Hlast].
Qed.

Lemma steps_trans (env : Env) (s1 s2 s3 : System) :
  steps env s1 s2 -> steps env s2 s3 -> steps env s1 s3.
Proof.
  intros H12 H23. induction H23 as [|s3 s4 _ IH Hlast].
  - exact H12.
  - eapply steps_step; [exact IH | exact Hlast].
Qed.

(** The lock discipline alone: whatever the handler body does, callers
    exclude each other. *)
Lemma exclusive_arrival (g : Globals) (w : World) : exclusive (arrival g w).
Proof.
  split; [|split]; simpl.
  - intros i j Hi. discriminate Hi.
  - reflexivity.
  - intros E. discriminate E.
Qed.

Lemma exclusive_step (env : Env) (s s' : System) :
  step env s s' -> exclusive s -> exclusive s'.
Proof.
  intros Hstep (Hone & Hfree & Hheld).
  destruct Hstep as [s i Hi Hl | s i x g w Hi Hrun | s i x Hi];
    unfold exclusive; simpl.
  - (* Lock: nobody was inside *)
    assert (Hin : forall c, inside (upd (callers s) i Entered c) = true ->
                            c = i).
    { intros c Hc. destruct (Nat.eq_dec c i) as [|Hne]; [assumption|].
      rewrite upd_other in Hc by assumption.
      now rewrite (Hfree Hl c) in Hc. }
    repeat split.
    + intros a b Ha Hb. now rewrite (Hin a Ha), (Hin b Hb).
    + discriminate.
    + intros _. exists i. now rewrite upd_same.
  - (* body: the same caller stays inside *)
    assert (Hin : forall c, inside (upd (callers s) i (Replied x) c) = true ->
                            inside (callers s c) = true).
    { intros c Hc. destruct (Nat.eq_dec c i) as [->|Hne].
      - now rewrite Hi.
      - now rewrite upd_other in Hc. }
    repeat split.
    + intros a b Ha Hb. apply Hone; now apply Hin.
    + intros Hl. specialize (Hfree Hl i). now rewrite Hi in Hfree.
    + intros _. exists i. now rewrite upd_same.
  - (* Unlock: the caller inside leaves *)
    assert (Hout : forall c, inside (upd (callers s) i (Returned x) c) = false).
    { intros c. destruct (Nat.eq_dec c i) as [->|Hne].
      - now rewrite upd_same.
      - rewrite upd_other by assumption.
        destruct (inside (callers s c)) eqn:Hc; [|reflexivity].
        exfalso. apply Hne. apply Hone; [assumption | now rewrite Hi]. }
    repeat split.
    + intros a b Ha. now rewrite Hout in Ha.
    + intros _. exact Hout.
    + discriminate.
Qed.

Lemma exclusive_steps (env : Env) (s s' : System) :
  exclusive s -> steps env s s' -> exclusive s'.
Proof.
  intros Hex. induction 1 as [|s1 s2 _ IH Hstep].
  - exact Hex.
  - now apply exclusive_step with (env := env) (s := s1).
Qed.

(** Counted executions are the executions. *)
Lemma execution_steps (env : Env) (s0 : System) (n : nat) (s : System) :
  execution env s0 n s -> steps env s0 s.
Proof.
  induction 1 as [|n s i _ IH Hi Hl|n s i x g w _ IH Hi Hrun|n s i x _ IH Hi].
  - apply steps_refl.
  - eapply steps_step; [exact IH | now apply step_Lock].
  - eapply steps_step; [exact IH | now apply step_body].
  - eapply steps_step; [exact IH | now apply step_Unlock].
Qed.

Lemma steps_execution (env : Env) (s0 s : System) :
  steps env s0 s -> exists n, execution env s0 n s.
Proof.
  induction 1 as [|s s' _ [n IH] Hstep].
  - exists 0%nat. apply execution_refl.
  - destruct Hstep as [s i Hi Hl | s i x g w Hi Hrun | s i x Hi].
    + exists n. now apply execution_Lock.
    + exists (S n). now apply execution_body.
    + exists n. now apply execution_Unlock.
Qed.

(** The handler never takes a crawl back. *)
Lemma handler_crawls_mono (env : Env) (g : Globals) (w : World) :
  (crawls g <= crawls (snd (fst (QueuedJobsHandler env g w))))%nat.
Proof.
  unfold QueuedJobsHandler, time_Since, bind, ret.
  destruct (time_Now w) as [now w0].
  destruct (Time_Sub now (lastUpdateTime g) <? cacheTimeout g)%Z;
    [simpl; lia|].
  destruct (CountQueuedJobs _ _ _ w0) as [[n [e|]] w1]; [simpl; lia|].
  destruct (time_Now w1). simpl. lia.
Qed.

Variable env : Env.
Variables (g0 : Globals) (w0 w1 : World).

Hypothesis timeout_ok : isDuration (cacheTimeout g0).

Hypothesis stale_at_arrival :
  Stale (fst (time_Now w0)) (lastUpdateTime g0) (cacheTimeout g0).

(** The first crawl succeeds. *)
Lemma body_first (k : Z) (x : Written) (g : Globals) (w : World) :
  CountQueuedJobs (githubURL_of env) (GITHUB_ORGANIZATION env)
    (GITHUB_TOKEN env) (snd (time_Now w0))
  = ((k, None), w1) ->
  QueuedJobsHandler env g0 w0 = ((x, g), w) ->
  x = WroteJSON k /\ g = refreshed g0 k (fst (time_Now w1))
  /\ w = readings 0 (snd (time_Now w1)).
Proof.
  intros Hcrawl.
  rewrite (handler_stale env g0 w0 timeout_ok stale_at_arrival), Hcrawl.
  intros E. inversion E. now repeat split.
Qed.

Lemma body_later (k : Z) (m : nat) (x : Written) (g : Globals) (w : World) :
  within_ttl g0 w1 m ->
  QueuedJobsHandler env (refreshed g0 k (fst (time_Now w1)))
    (readings m (snd (time_Now w1)))
  = ((x, g), w) ->
  x = WroteJSON k /\ g = refreshed g0 k (fst (time_Now w1))
  /\ w = readings (S m) (snd (time_Now w1)).
Proof.
  intros [Hmono Hfresh].
  rewrite handler_fresh; [| exact timeout_ok | exact Hmono | exact Hfresh].
  rewrite readings_next. intros E. inversion E. now repeat split.
Qed.

Lemma carried_always (k : Z) :
  CountQueuedJobs (githubURL_of env) (GITHUB_ORGANIZATION env)
    (GITHUB_TOKEN env) (snd (time_Now w0))
  = ((k, None), w1) ->
  forall (n : nat) (s : System),
    execution env (arrival g0 w0) n s ->
    (forall m : nat, (S m < n)%nat -> within_ttl g0 w1 m) ->
    carried g0 w0 w1 k n s.
Proof.
  intros Hcrawl n s Hexec.
  induction Hexec
    as [|n s i _ IH Hi Hl|n s i x g w _ IH Hi Hrun|n s i x _ IH Hi];
    intros Hwin.
  - repeat split. intros i. now left.
  - specialize (IH Hwin).
    destruct n as [|m]; destruct IH as (Hg & Hw & Hc);
      repeat split; try assumption; intros c; simpl;
      (destruct (Nat.eq_dec c i) as [->|Hne];
       [rewrite upd_same; tauto | rewrite upd_other by assumption; apply Hc]).
  - assert (IH' : carried g0 w0 w1 k n s)
      by (apply IH; intros m Hm; apply Hwin; lia).
    destruct n as [|m]; destruct IH' as (Hg & Hw & Hc);
      rewrite Hg, Hw in Hrun.
    + destruct (body_first k _ _ _ Hcrawl Hrun) as (-> & -> & ->).
      repeat split. intros c. simpl.
      destruct (Nat.eq_dec c i) as [->|Hne].
      * rewrite upd_same. tauto.
      * rewrite upd_other by assumption. destruct (Hc c) as [->| ->]; tauto.
    + assert (Hm : within_ttl g0 w1 m) by (apply Hwin; lia).
      destruct (body_later k m _ _ _ Hm Hrun) as (-> & -> & ->).
      repeat split. intros c. simpl.
      destruct (Nat.eq_dec c i) as [->|Hne].
      * rewrite upd_same. tauto.
      * rewrite upd_other by assumption. apply Hc.
  - specialize (IH Hwin).
    destruct n as [|m]; destruct IH as (Hg & Hw & Hc).
    + exfalso. destruct (Hc i) as [E|E]; rewrite E in Hi; discriminate Hi.
    + repeat split; try assumption. intros c. simpl.
      destruct (Nat.eq_dec c i) as [->|Hne].
      * rewrite upd_same.
        destruct (Hc i) as [E|[E|[E|E]]]; rewrite E in Hi;
          try discriminate Hi.
        inversion Hi. tauto.
      * rewrite upd_other by assumption. apply Hc.
Qed.

(** The first crawl fails. *)
Lemma retried_always (k : Z) (e : error) :
  CountQueuedJobs (githubURL_of env) (GITHUB_ORGANIZATION env)
    (GITHUB_TOKEN env) (snd (time_Now w0))
  = ((k, Some e), w1) ->
  (fst (time_Now w0) <= fst (time_Now w1))%Z ->
  forall (n : nat) (s : System),
    execution env (arrival g0 w0) n s -> retried g0 w0 w1 n s.
Proof.
  intros Hfail Hclock n s Hexec.
  induction Hexec
    as [|n s i _ IH Hi Hl|n s i x g w _ IH Hi Hrun|n s i x _ IH Hi].
  - now split.
  - destruct n as [|[|n]]; exact IH.
  - destruct n as [|[|n]]; simpl in IH |- *.
    + destruct IH as [Hg Hw]. rewrite Hg, Hw in Hrun.
      rewrite (handler_stale env g0 w0 timeout_ok stale_at_arrival), Hfail
        in Hrun.
      inversion Hrun. now split.
    + destruct IH as [Hg Hw]. rewrite Hg, Hw in Hrun.
      assert (Hs : Stale (fst (time_Now w1)) (lastUpdateTime (noteCrawl g0))
                     (cacheTimeout (noteCrawl g0)))
        by (now apply Stale_later with (now := fst (time_Now w0))).
      pose proof (handler_stale_crawls env (noteCrawl g0) w1 timeout_ok Hs)
        as Hc.
      rewrite Hrun in Hc. simpl in Hc. lia.
    + pose proof (handler_crawls_mono env (vars s) (world s)) as Hc.
      rewrite Hrun in Hc. simpl in Hc. lia.
  - destruct n as [|[|n]]; exact IH.
Qed.

End SingleFlight.

(** Running the callers of an execution one step at a time. *)
Ltac run_Lock n :=
  eapply steps_cons; [eapply (step_Lock _ _ n); reflexivity|].

Ltac run_body n :=
  eapply steps_cons;
  [eapply (step_body _ _ n); [reflexivity | vm_compute; reflexivity]|].

Ltac run_Unlock n :=
  eapply steps_cons; [eapply (step_Unlock _ _ n); reflexivity|].

Ltac run_caller n := run_Lock n; run_body n; run_Unlock n.

(** Building a counted execution from its last step back. *)
Ltac did_Lock i before :=
  eapply (execution_Lock _ _ _ _ i); [before | reflexivity | reflexivity].

Ltac did_body i before :=
  eapply (execution_body _ _ _ _ i);
  [before | reflexivity | vm_compute; reflexivity].

Ltac did_Unlock i before :=
  eapply (execution_Unlock _ _ _ _ i); [before | reflexivity].

(** C8, as stated, fails.  Two callers arrive at the same stale entry.
    When the upstream is down, the first caller's recomputation fails,
    nothing is stored and the second caller recomputes too; when the
    timeout is 0, the first caller's count is stale as soon as it is
    stored.  Either way two recomputations are performed. *)
Lemma recompute_per_caller :
  (Stale (fst (fake.Now fake.start)) (lastUpdateTime fake.cold)
     (cacheTimeout fake.cold)
   /\ exists s : System,
        @steps _ (fake.platform fake.down) fake.env
          (arrival fake.cold fake.start) s
        /\ (exists e, callers s 0%nat = Returned (WroteError e 500))
        /\ (exists e, callers s 1%nat = Returned (WroteError e 500))
        /\ crawls (vars s) = 2%nat)
  /\ (Stale (fst (fake.Now fake.start)) (lastUpdateTime fake.no_ttl)
        (cacheTimeout fake.no_ttl)
      /\ exists s : System,
           @steps _ (fake.platform fake.acme) fake.env
             (arrival fake.no_ttl fake.start) s
           /\ callers s 0%nat = Returned (WroteJSON 3)
           /\ callers s 1%nat = Returned (WroteJSON 3)
           /\ crawls (vars s) = 2%nat).
Proof.
  split; (split; [vm_compute; intros E; discriminate E|]); eexists; split.
  - run_caller 0%nat. run_caller 1%nat. apply steps_refl.
  - repeat split; eexists; reflexivity.
  - run_caller 0%nat. run_caller 1%nat. apply steps_refl.
  - repeat split.
Qed.

(** C8, amended.  Callers of the handler serialize on the one lock, held
    from [Lock] to the deferred [Unlock], recomputation included: at most
    one caller is inside at any time.  When many callers arrive at the same
    stale entry and the first recomputation succeeds, then in every
    interleaving in which the callers that run the body after it read the
    clock less than [ttl] after the time it stored, exactly one
    recomputation is performed and every caller answers its count.  When
    the first recomputation fails nothing is stored, and the next caller
    to run the body recomputes again. *)
Theorem single_flight {World : Type} `{Platform World}
    (env : Env) (g0 : Globals) (w0 w1 : World) (n : nat) (s : System) :
  isDuration (cacheTimeout g0) ->
  Stale (fst (time_Now w0)) (lastUpdateTime g0) (cacheTimeout g0) ->
  execution env (arrival g0 w0) n s ->
  exclusive s
  /\ (forall k : Z,
         CountQueuedJobs (githubURL_of env) (GITHUB_ORGANIZATION env)
           (GITHUB_TOKEN env) (snd (time_Now w0))
         = ((k, None), w1) ->
         (forall m : nat, (S m < n)%nat -> within_ttl g0 w1 m) ->
         crawls (vars s) = (crawls g0 + Nat.min n 1)%nat
         /\ forall (i : nat) (x : Written),
              callers s i = Replied x \/ callers s i = Returned x ->
              x = WroteJSON k /\ cachedJobs (vars s) = k)
  /\ (forall (k : Z) (e : error),
         CountQueuedJobs (githubURL_of env) (GITHUB_ORGANIZATION env)
           (GITHUB_TOKEN env) (snd (time_Now w0))
         = ((k, Some e), w1) ->
         (fst (time_Now w0) <= fst (time_Now w1))%Z ->
         (n = 1%nat ->
          crawls (vars s) = S (crawls g0)
          /\ cachedJobs (vars s) = cachedJobs g0
          /\ lastUpdateTime (vars s) = lastUpdateTime g0)
         /\ ((2 <= n)%nat -> (crawls g0 + 2 <= crawls (vars s))%nat)).
Proof.
  intros Hd Hstale Hexec. split; [|split].
  - apply (exclusive_steps env (arrival g0 w0));
      [apply exclusive_arrival | now apply execution_steps with (n := n)].
  - intros k Hcrawl Hwin.
    pose proof (carried_always env g0 w0 w1 Hd Hstale k Hcrawl n s Hexec Hwin)
      as Hinv.
    destruct n as [|m]; destruct Hinv as (Hg & _ & Hc); rewrite Hg; simpl.
    + split; [lia|]. intros i x Hx.
      destruct (Hc i) as [E|E]; rewrite E in Hx; destruct Hx; discriminate.
    + split; [lia|]. intros i x Hx.
      destruct (Hc i) as [E|[E|[E|E]]]; rewrite E in Hx;
        destruct Hx as [Hx|Hx]; try discriminate Hx;
        inversion Hx; now split.
  - intros k e Hfail Hclock.
    pose proof (retried_always env g0 w0 w1 Hd Hstale k e Hfail Hclock n s
                  Hexec) as Hinv.
    split.
    + intros ->. destruct Hinv as [-> _]. now repeat split.
    + intros Hn. destruct n as [|[|n]]; [lia | lia | exact Hinv].
Qed.

Lemma single_flight_witness :
  (exists s : System,
      @execution _ (fake.ticking fake.acme) fake.env
        (arrival fake.cold fake.start) 2 s
      /\ callers s 0%nat = Returned (WroteJSON 3)
      /\ callers s 1%nat = Replied (WroteJSON 3)
      /\ crawls (vars s) = 1%nat)
  /\ (exists s : System,
         @execution _ (fake.ticking fake.down) fake.env
           (arrival fake.cold fake.start) 2 s
         /\ (2 <= crawls (vars s))%nat).
Proof.
  assert (Hd : isDuration (cacheTimeout fake.cold)).
  { split; vm_compute; intros E; discriminate E. }
  assert (Hstale : Stale (fst (fake.Tick fake.start))
                     (lastUpdateTime fake.cold) (cacheTimeout fake.cold)).
  { vm_compute. intros E. discriminate E. }
  split.
  - assert (Hrun : exists s : System,
               @execution _ (fake.ticking fake.acme) fake.env
                 (arrival fake.cold fake.start) 2 s
               /\ (exists x, callers s 0%nat = Returned x)
               /\ (exists x, callers s 1%nat = Replied x)).
    { eexists. split.
      - did_body 1%nat
          ltac:(did_Lock 1%nat
                  ltac:(did_Unlock 0%nat
                          ltac:(did_body 0%nat
                                  ltac:(did_Lock 0%nat
                                          ltac:(apply execution_refl))))).
      - split; eexists; reflexivity. }
    destruct Hrun as (s & Hs & [x0 H0] & [x1 H1]).
    destruct (@single_flight _ (fake.ticking fake.acme) fake.env fake.cold
                fake.start
                (snd (@CountQueuedJobs _ (fake.ticking fake.acme)
                        "https://api.github.com" "acme" "t"
                        (snd (fake.Tick fake.start))))
                2%nat s Hd Hstale Hs) as (_ & Hok & _).
    destruct (Hok 3%Z) as [Hn Hall].
    + vm_compute. reflexivity.
    + intros [|m] Hm; [|lia]. split.
      * vm_compute. intros E. discriminate E.
      * vm_compute. reflexivity.
    + exists s. split; [exact Hs|].
      destruct (Hall 0%nat x0 (or_intror H0)) as [-> _].
      destruct (Hall 1%nat x1 (or_introl H1)) as [-> _].
      now repeat split.
  - assert (Hrun : exists s : System,
               @execution _ (fake.ticking fake.down) fake.env
                 (arrival fake.cold fake.start) 2 s).
    { eexists.
      did_body 1%nat
        ltac:(did_Lock 1%nat
                ltac:(did_Unlock 0%nat
                        ltac:(did_body 0%nat
                                ltac:(did_Lock 0%nat
                                        ltac:(apply execution_refl))))). }
    destruct Hrun as (s & Hs).
    destruct (@single_flight _ (fake.ticking fake.down) fake.env fake.cold
                fake.start
                (snd (@CountQueuedJobs _ (fake.ticking fake.down)
                        "https://api.github.com" "acme" "t"
                        (snd (fake.Tick fake.start))))
                2%nat s Hd Hstale Hs) as (_ & _ & Hfail).
    destruct (Hfail 0%Z (Errorf "error fetching repos: 404 Not Found"))
      as [_ Htwo].
    + vm_compute. reflexivity.
    + vm_compute. intros E. discriminate E.
    + exists s. split; [exact Hs|]. apply (Htwo (le_n 2)).
Defined.

(* ================================================================== *)
(** * Further properties of the URL builder                            *)
(* ================================================================== *)

Section MoreURLs.

Lemma snoc_inj (a b : string) (c d : ascii) :
  a ++ String c "" = b ++ String d "" -> a = b /\ c = d.
Proof.
  revert b; induction a as [|x a IH]; intros [|y b] E; simpl in E.
  - now inversion E.
  - inversion E as [[Hc Hb]]. destruct b; discriminate Hb.
  - inversion E as [[Hc Ha]]. destruct a; discriminate Ha.
  - inversion E as [[Hxy Hab]]. destruct (IH b Hab) as [-> ->]. now split.
Qed.

(** A slash appended to the base URL does not change whether the base URL
    starts with the public origin. *)
Lemma HasPrefix_public_snoc (s : string) :
  strings.HasPrefix (s ++ "/") "https://api.github.com"
  = strings.HasPrefix s "https://api.github.com".
Proof.
  destruct (strings.HasPrefix s "https://api.github.com") eqn:E.
  - apply HasPrefix_inv in E as [rest ->].
    rewrite append_assoc. apply HasPrefix_app.
  - destruct (strings.HasPrefix (s ++ "/") "https://api.github.com") eqn:E';
      [|reflexivity].
    apply HasPrefix_inv in E' as [rest Hrest].
    destruct (snoc_cases rest) as [->|(pre & c & ->)].
    + rewrite append_nil_r in Hrest.
      assert (Hs : strings.HasSuffix (s ++ "/") "/" = true)
        by apply HasSuffix_app.
      rewrite Hrest in Hs. discriminate Hs.
    + rewrite <- append_assoc in Hrest.
      apply snoc_inj in Hrest as [-> _].
      now rewrite HasPrefix_app in E.
Qed.

End MoreURLs.

(** X1.  One trailing slash on the base URL makes no difference: for a
    base URL that does not end in a slash, [buildAPIURL] gives the same
    URL with and without a slash appended to it. *)
Theorem buildAPIURL_trailing_slash (baseURL endpoint : string) :
  strings.HasSuffix baseURL "/" = false ->
  buildAPIURL (baseURL ++ "/") endpoint = buildAPIURL baseURL endpoint.
Proof.
  intros Hno.
  rewrite !buildAPIURL_join, TrimSuffix_app, (TrimSuffix_none _ _ Hno).
  unfold separator. now rewrite HasPrefix_public_snoc.
Qed.

Lemma buildAPIURL_trailing_slash_witness :
  buildAPIURL "https://ghe.example.com/" "orgs/acme/repos"
  = buildAPIURL "https://ghe.example.com" "orgs/acme/repos".
Proof.
  apply (buildAPIURL_trailing_slash "https://ghe.example.com"). reflexivity.
Defined.

(* ================================================================== *)
(** * Further properties of the GitHub client                          *)
(* ================================================================== *)

Section MoreDecoding.

Lemma binds_refl (field : string) : json.binds field field = true.
Proof. unfold json.binds. now rewrite String.eqb_refl. Qed.

Lemma object_skip {T : Type} (field : string)
    (store : json.Value -> json.Dec T)
    (members : list (string * json.Value)) (v : T) (saved : option error) :
  (forall key j, In (key, j) members -> json.binds field key = false) ->
  json.object field store members v saved = (v, saved).
Proof.
  induction members as [|[key j] members IH]; intros Hno; simpl.
  - reflexivity.
  - rewrite (Hno key j (or_introl eq_refl)).
    apply IH. intros k x Hin. apply (Hno k x). now right.
Qed.

Lemma object_app {T : Type} (field : string)
    (store : json.Value -> json.Dec T)
    (pre post : list (string * json.Value)) (v : T) (saved : option error) :
  json.object field store (pre ++ post) v saved
  = json.object field store post
      (fst (json.object field store pre v saved))
      (snd (json.object field store pre v saved)).
Proof.
  revert v saved; induction pre as [|[key j] pre IH]; intros v saved; simpl.
  - reflexivity.
  - destruct (json.binds field key); [|apply IH].
    destruct (store j v saved) as [v1 saved1]. apply IH.
Qed.

Lemma object_cons_bound {T : Type} (field : string)
    (store : json.Value -> json.Dec T) (key : string) (j : json.Value)
    (rest : list (string * json.Value)) (v : T) (saved : option error) :
  json.binds field key = true ->
  json.object field store ((key, j) :: rest) v saved
  = json.object field store rest
      (fst (store j v saved)) (snd (store j v saved)).
Proof. intros Hb. simpl. rewrite Hb. now destruct (store j v saved). Qed.

(** An object with one member bound to the field stores that member and
    skips the others. *)
Lemma object_has_field {T : Type} (field : string)
    (store : json.Value -> json.Dec T) (x : json.Value)
    (members : list (string * json.Value)) (v : T) (saved : option error) :
  has_field field x members ->
  json.object field store members v saved = store x v saved.
Proof.
  intros (pre & post & -> & Hno).
  rewrite object_app, (object_skip field store pre).
  - cbn [fst snd]. rewrite object_cons_bound by apply binds_refl.
    rewrite object_skip; [now destruct (store x v saved)|].
    intros k j Hin. apply (Hno k j). apply in_or_app. now right.
  - intros k j Hin. apply (Hno k j). apply in_or_app. now left.
Qed.

Lemma store_Repo_object (name : string) (j : json.Value) (r : Repo)
    (saved : option error) :
  repoObject name j -> store_Repo j r saved = ({| FullName := name |}, saved).
Proof.
  intros (members & -> & Hf). unfold store_Repo. simpl.
  now rewrite (object_has_field _ _ _ _ _ _ Hf).
Qed.

Lemma store_WorkflowRun_object (status : string) (j : json.Value)
    (r : WorkflowRun) (saved : option error) :
  runObject status j ->
  store_WorkflowRun j r saved = ({| Status := status |}, saved).
Proof.
  intros (members & -> & Hf). unfold store_WorkflowRun. simpl.
  now rewrite (object_has_field _ _ _ _ _ _ Hf).
Qed.

(** An array stored into a nil slice, when every item stores a value
    without error. *)
Lemma array_fresh {T : Type} (zero : T) (store : json.Value -> json.Dec T)
    (xs : list T) (items : list json.Value) (saved : option error) :
  Forall2 (fun x j => forall v s, store j v s = (x, s)) xs items ->
  json.array zero store items [] saved = (xs, saved).
Proof.
  induction 1 as [|x j xs items Hx _ IH]; simpl.
  - reflexivity.
  - now rewrite Hx, IH.
Qed.

Lemma value_slice_fresh {T : Type} (zero : T)
    (store : json.Value -> json.Dec T)
    (xs : list T) (items : list json.Value) (saved : option error) :
  Forall2 (fun x j => forall v s, store j v s = (x, s)) xs items ->
  json.elems (fst (json.value_slice zero store (json.Array items)
                     json.nil_slice saved)) = xs
  /\ snd (json.value_slice zero store (json.Array items)
            json.nil_slice saved) = saved.
Proof.
  intros Hall. pose proof (Forall2_length Hall) as Hlen.
  destruct items as [|j items].
  - destruct xs; [now split | discriminate Hlen].
  - unfold json.value_slice.
    change (json.arr json.nil_slice) with (@nil T).
    rewrite (array_fresh zero store xs (j :: items) saved Hall).
    unfold json.elems. cbn [json.n json.arr fst snd].
    rewrite skipn_nil, app_nil_r, <- Hlen, firstn_all. now split.
Qed.

Lemma Forall2_map_l {A B C : Type} (f : A -> B) (P : B -> C -> Prop)
    (l : list A) (l' : list C) :
  Forall2 (fun a c => P (f a) c) l l' -> Forall2 P (map f l) l'.
Proof. induction 1; simpl; constructor; assumption. Qed.

Lemma Decode_Repos_listing (names : list string) (items : list json.Value) :
  Forall2 repoObject names items ->
  Decode store_Repos (Document (json.Array items)) json.nil_slice
  = (fst (Decode store_Repos (Document (json.Array items)) json.nil_slice),
     None)
  /\ json.elems
       (fst (Decode store_Repos (Document (json.Array items)) json.nil_slice))
     = map (fun name => {| FullName := name |}) names.
Proof.
  intros Hall.
  assert (Hst : Forall2 (fun x j => forall v s, store_Repo j v s = (x, s))
                  (map (fun name => {| FullName := name |}) names) items).
  { apply Forall2_map_l. eapply Forall2_impl; [|exact Hall].
    intros name j Hobj v s. now apply store_Repo_object. }
  destruct (value_slice_fresh {| FullName := "" |} store_Repo _ _ None Hst)
    as [He Hs].
  unfold Decode, store_Repos. split; [|exact He].
  rewrite <- Hs at 3. apply surjective_pairing.
Qed.

Lemma Decode_runs_listing (statuses : list string)
    (members : list (string * json.Value)) (items : list json.Value) :
  has_field "workflow_runs" (json.Array items) members ->
  Forall2 runObject statuses items ->
  Decode store_workflowRuns (Document (json.Object members)) json.nil_slice
  = (fst (Decode store_workflowRuns (Document (json.Object members))
            json.nil_slice), None)
  /\ json.elems
       (fst (Decode store_workflowRuns (Document (json.Object members))
               json.nil_slice))
     = map (fun status => {| Status := status |}) statuses.
Proof.
  intros Hf Hall.
  assert (Hst : Forall2 (fun x j => forall v s,
                             store_WorkflowRun j v s = (x, s))
                  (map (fun status => {| Status := status |}) statuses)
                  items).
  { apply Forall2_map_l. eapply Forall2_impl; [|exact Hall].
    intros status j Hobj v s. now apply store_WorkflowRun_object. }
  destruct (value_slice_fresh {| Status := "" |} store_WorkflowRun _ _ None
              Hst) as [He Hs].
  unfold Decode, store_workflowRuns. simpl json.value_struct.
  rewrite (object_has_field _ _ _ _ _ _ Hf).
  split; [|exact He].
  rewrite <- Hs at 3. apply surjective_pairing.
Qed.

End MoreDecoding.

Section MoreClient.

Context {World : Type} `{Platform World}.

Lemma Sprintf_status_repos (status : string) :
  fmt.Sprintf "error fetching repos: %s" [status]
  = "error fetching repos: " ++ status.
Proof. simpl. now rewrite append_nil_r. Qed.

Lemma Sprintf_status_runs (status : string) :
  fmt.Sprintf "error fetching workflow runs: %s" [status]
  = "error fetching workflow runs: " ++ status.
Proof. simpl. now rewrite append_nil_r. Qed.

(** [GetRepos], once the URL has parsed: one round trip, then the status
    check, then the decoding. *)
Lemma GetRepos_sends (githubURL org token : string) (w : World) :
  url_Parse (reposURL githubURL org) = None ->
  GetRepos githubURL org token w
  = let '(r, w1) := client_Do (request token (reposURL githubURL org)) w in
    match r with
    | inl err => (([], Some err), w1)
    | inr resp =>
        if negb (http.StatusCode resp =? http.StatusOK)%Z then
          (([], Some (Errorf ("error fetching repos: " ++ http.Status resp))),
           w1)
        else
          match snd (Decode store_Repos (http.Body_ resp) json.nil_slice) with
          | Some err => (([], Some err), w1)
          | None =>
              ((json.elems
                  (fst (Decode store_Repos (http.Body_ resp) json.nil_slice)),
                None), w1)
          end
    end.
Proof.
  intros Hurl. unfold GetRepos, NewRequest. fold (reposURL githubURL org).
  rewrite Hurl. unfold bind, ret. fold (request token (reposURL githubURL org)).
  destruct (client_Do _ w) as [[err|resp] w1]; [reflexivity|].
  rewrite Sprintf_status_repos.
  destruct (negb _); [reflexivity|].
  now destruct (Decode store_Repos _ _) as [repos [err|]].
Qed.

Lemma GetWorkflowRuns_sends (githubURL repo token : string) (w : World) :
  url_Parse (runsURL githubURL repo) = None ->
  GetWorkflowRuns githubURL repo token w
  = let '(r, w1) := client_Do (request token (runsURL githubURL repo)) w in
    match r with
    | inl err => (([], Some err), w1)
    | inr resp =>
        if negb (http.StatusCode resp =? http.StatusOK)%Z then
          (([], Some (Errorf ("error fetching workflow runs: "
                              ++ http.Status resp))), w1)
        else
          match snd (Decode store_workflowRuns (http.Body_ resp)
                       json.nil_slice) with
          | Some err => (([], Some err), w1)
          | None =>
              ((json.elems
                  (fst (Decode store_workflowRuns (http.Body_ resp)
                          json.nil_slice)), None), w1)
          end
    end.
Proof.
  intros Hurl. unfold GetWorkflowRuns, NewRequest.
  fold (runsURL githubURL repo).
  rewrite Hurl. unfold bind, ret. fold (request token (runsURL githubURL repo)).
  destruct (client_Do _ w) as [[err|resp] w1]; [reflexivity|].
  rewrite Sprintf_status_runs.
  destruct (negb _); [reflexivity|].
  now destruct (Decode store_workflowRuns _ _) as [runs [err|]].
Qed.

Lemma GetRepos_unparsed (githubURL org token : string) (w : World)
    (e : error) :
  url_Parse (reposURL githubURL org) = Some e ->
  GetRepos githubURL org token w = (([], Some e), w).
Proof.
  intros Hurl. unfold GetRepos, NewRequest. fold (reposURL githubURL org).
  now rewrite Hurl.
Qed.

Lemma GetWorkflowRuns_unparsed (githubURL repo token : string) (w : World)
    (e : error) :
  url_Parse (runsURL githubURL repo) = Some e ->
  GetWorkflowRuns githubURL repo token w = (([], Some e), w).
Proof.
  intros Hurl. unfold GetWorkflowRuns, NewRequest.
  fold (runsURL githubURL repo). now rewrite Hurl.
Qed.

End MoreClient.

(** X3.  Whenever [GetRepos] or [GetWorkflowRuns] returns an error, the
    slice it returns with it is nil: no partly decoded listing comes
    back. *)
Theorem clients_nil_on_error {World : Type} `{Platform World}
    (githubURL name token : string) (w w' : World) (e : error) :
  (forall repos : list Repo,
      GetRepos githubURL name token w = ((repos, Some e), w') -> repos = [])
  /\ (forall runs : list WorkflowRun,
         GetWorkflowRuns githubURL name token w = ((runs, Some e), w') ->
         runs = []).
Proof.
  split.
  - intros repos.
    destruct (url_Parse (reposURL githubURL name)) as [e0|] eqn:Hurl.
    + rewrite (GetRepos_unparsed _ _ _ _ _ Hurl). intros E. now inversion E.
    + rewrite (GetRepos_sends _ _ _ _ Hurl).
      destruct (client_Do _ w) as [[err|resp] w1].
      * intros E. now inversion E.
      * destruct (negb _); [intros E; now inversion E|].
        destruct (snd (Decode store_Repos _ _));
          intros E; now inversion E.
  - intros runs.
    destruct (url_Parse (runsURL githubURL name)) as [e0|] eqn:Hurl.
    + rewrite (GetWorkflowRuns_unparsed _ _ _ _ _ Hurl).
      intros E. now inversion E.
    + rewrite (GetWorkflowRuns_sends _ _ _ _ Hurl).
      destruct (client_Do _ w) as [[err|resp] w1].
      * intros E. now inversion E.
      * destruct (negb _); [intros E; now inversion E|].
        destruct (snd (Decode store_workflowRuns _ _));
          intros E; now inversion E.
Qed.

Lemma clients_nil_on_error_witness :
  fst (fst (@GetRepos _ (fake.platform fake.down)
              "https://api.github.com" "acme" "t" fake.start)) = [].
Proof.
  apply (proj1 (@clients_nil_on_error _ (fake.platform fake.down)
                  "https://api.github.com" "acme" "t" fake.start
                  (snd (@GetRepos _ (fake.platform fake.down)
                          "https://api.github.com" "acme" "t" fake.start))
                  (Errorf "error fetching repos: 404 Not Found"))).
  vm_compute. reflexivity.
Defined.

(** X4.  A response whose status code is not 200 makes [GetRepos] and
    [GetWorkflowRuns] fail with an error that carries the status line; the
    body is not decoded, whatever it holds. *)
Theorem clients_reject_other_status {World : Type} `{Platform World}
    (githubURL name token : string) (resp : http.Response) (w w1 : World) :
  http.StatusCode resp <> http.StatusOK ->
  (url_Parse (reposURL githubURL name) = None ->
   client_Do (request token (reposURL githubURL name)) w = (inr resp, w1) ->
   GetRepos githubURL name token w
   = (([], Some (Errorf ("error fetching repos: " ++ http.Status resp))),
      w1))
  /\ (url_Parse (runsURL githubURL name) = None ->
      client_Do (request token (runsURL githubURL name)) w = (inr resp, w1) ->
      GetWorkflowRuns githubURL name token w
      = (([], Some (Errorf ("error fetching workflow runs: "
                            ++ http.Status resp))), w1)).
Proof.
  intros Hcode.
  assert (Hneq : negb (http.StatusCode resp =? http.StatusOK)%Z = true).
  { apply negb_true_iff. now apply Z.eqb_neq. }
  split; intros Hurl Hdo.
  - now rewrite (GetRepos_sends _ _ _ _ Hurl), Hdo, Hneq.
  - now rewrite (GetWorkflowRuns_sends _ _ _ _ Hurl), Hdo, Hneq.
Qed.

Lemma clients_reject_other_status_witness :
  fst (@GetWorkflowRuns _ (fake.platform fake.acme_B_down)
         "https://api.github.com" "acme/B" "t" fake.start)
  = ([], Some (Errorf "error fetching workflow runs: 404 Not Found")).
Proof.
  rewrite (proj2 (@clients_reject_other_status _
                    (fake.platform fake.acme_B_down)
                    "https://api.github.com" "acme/B" "t"
                    {| http.StatusCode := 404;
                       http.Status := "404 Not Found";
                       http.Body_ :=
                         Document (json.Object
                                     [("message", json.Str "Not Found")]) |}
                    fake.start
                    (snd (fake.Do fake.acme_B_down
                            (request "t" (runsURL "https://api.github.com"
                                            "acme/B")) fake.start))
                    ltac:(intros E; discriminate E))
             eq_refl eq_refl).
  reflexivity.
Defined.

(** X5.  From a 200 response whose body is a JSON array of objects that
    each have a string [full_name] (other members are skipped),
    [GetRepos] returns the repositories of those names, in the order of
    the array. *)
Theorem GetRepos_lists_names {World : Type} `{Platform World}
    (githubURL org token : string) (resp : http.Response)
    (names : list string) (items : list json.Value) (w w1 : World) :
  url_Parse (reposURL githubURL org) = None ->
  client_Do (request token (reposURL githubURL org)) w = (inr resp, w1) ->
  http.StatusCode resp = http.StatusOK ->
  http.Body_ resp = Document (json.Array items) ->
  Forall2 repoObject names items ->
  GetRepos githubURL org token w
  = ((map (fun name => {| FullName := name |}) names, None), w1).
Proof.
  intros Hurl Hdo Hcode Hbody Hall.
  rewrite (GetRepos_sends _ _ _ _ Hurl), Hdo, Hcode, Hbody. simpl negb.
  cbv iota.
  destruct (Decode_Repos_listing names items Hall) as [Hd He].
  rewrite Hd. cbn [fst snd]. now rewrite He.
Qed.

(** X6.  From a 200 response whose body is a JSON object with an array
    [workflow_runs] of objects that each have a string [status] (other
    members are skipped), [GetWorkflowRuns] returns the runs of those
    statuses, in the order of the array. *)
Theorem GetWorkflowRuns_lists_statuses {World : Type} `{Platform World}
    (githubURL repo token : string) (resp : http.Response)
    (statuses : list string) (members : list (string * json.Value))
    (items : list json.Value) (w w1 : World) :
  url_Parse (runsURL githubURL repo) = None ->
  client_Do (request token (runsURL githubURL repo)) w = (inr resp, w1) ->
  http.StatusCode resp = http.StatusOK ->
  http.Body_ resp = Document (json.Object members) ->
  has_field "workflow_runs" (json.Array items) members ->
  Forall2 runObject statuses items ->
  GetWorkflowRuns githubURL repo token w
  = ((map (fun status => {| Status := status |}) statuses, None), w1).
Proof.
  intros Hurl Hdo Hcode Hbody Hf Hall.
  rewrite (GetWorkflowRuns_sends _ _ _ _ Hurl), Hdo, Hcode, Hbody.
  simpl negb. cbv iota.
  destruct (Decode_runs_listing statuses members items Hf Hall) as [Hd He].
  rewrite Hd. cbn [fst snd]. now rewrite He.
Qed.

(** X7.  A 200 response whose body cannot be read as JSON, or whose JSON
    value is neither an array nor [null], makes [GetRepos] fail: with the
    error of the body, or with a type error naming the kind of the value.
    A body [null] gives no repositories and no error. *)
Theorem GetRepos_body_kinds {World : Type} `{Platform World}
    (githubURL org token : string) (resp : http.Response) (w w1 : World) :
  url_Parse (reposURL githubURL org) = None ->
  client_Do (request token (reposURL githubURL org)) w = (inr resp, w1) ->
  http.StatusCode resp = http.StatusOK ->
  (forall e, http.Body_ resp = Unreadable e ->
             GetRepos githubURL org token w = (([], Some e), w1))
  /\ (forall j, http.Body_ resp = Document j ->
                (forall items, j <> json.Array items) -> j <> json.Null ->
                GetRepos githubURL org token w
                = (([], Some (UnmarshalTypeError (json.kind j))), w1))
  /\ (http.Body_ resp = Document json.Null ->
      GetRepos githubURL org token w = (([], None), w1)).
Proof.
  intros Hurl Hdo Hcode.
  rewrite (GetRepos_sends _ _ _ _ Hurl), Hdo, Hcode. simpl negb. cbv iota.
  repeat split.
  - intros e ->. reflexivity.
  - intros j -> Harr Hnull.
    destruct j as [|b|lit|s|items|members]; try reflexivity.
    + now contradiction Hnull.
    + now contradiction (Harr items).
  - intros ->. reflexivity.
Qed.

Section Fixtures.

Lemma fake_repo_object (name : string) : repoObject name (fake.repo name).
Proof.
  exists [("id", json.Number "1"); ("full_name", json.Str name)].
  split; [reflexivity|].
  exists [("id", json.Number "1")], []. split; [reflexivity|].
  intros key j [E|[]]. now inversion E.
Defined.

Lemma fake_run_object (status : string) : runObject status (fake.run status).
Proof.
  exists [("id", json.Number "7"); ("status", json.Str status)].
  split; [reflexivity|].
  exists [("id", json.Number "7")], []. split; [reflexivity|].
  intros key j [E|[]]. now inversion E.
Defined.

End Fixtures.

Lemma GetRepos_lists_names_witness :
  fst (@GetRepos _ (fake.platform fake.acme)
         "https://api.github.com" "acme" "t" fake.start)
  = ([{| FullName := "acme/A" |}; {| FullName := "acme/B" |}], None).
Proof.
  rewrite (@GetRepos_lists_names _ (fake.platform fake.acme)
             "https://api.github.com" "acme" "t"
             {| http.StatusCode := 200; http.Status := "200 OK";
                http.Body_ :=
                  Document (json.Array [fake.repo "acme/A";
                                        fake.repo "acme/B"]) |}
             ["acme/A"; "acme/B"] [fake.repo "acme/A"; fake.repo "acme/B"]
             fake.start
             (snd (fake.Do fake.acme
                     (request "t" (reposURL "https://api.github.com" "acme"))
                     fake.start))
             eq_refl eq_refl eq_refl eq_refl).
  - reflexivity.
  - repeat constructor; apply fake_repo_object.
Defined.

Lemma GetWorkflowRuns_lists_statuses_witness :
  fst (@GetWorkflowRuns _ (fake.platform fake.acme)
         "https://api.github.com" "acme/A" "t" fake.start)
  = ([{| Status := "queued" |}; {| Status := "completed" |}], None).
Proof.
  rewrite (@GetWorkflowRuns_lists_statuses _ (fake.platform fake.acme)
             "https://api.github.com" "acme/A" "t"
             {| http.StatusCode := 200; http.Status := "200 OK";
                http.Body_ := Document (fake.runs ["queued"; "completed"]) |}
             ["queued"; "completed"]
             [("total_count", json.Number "2");
              ("workflow_runs",
               json.Array [fake.run "queued"; fake.run "completed"])]
             [fake.run "queued"; fake.run "completed"]
             fake.start
             (snd (fake.Do fake.acme
                     (request "t" (runsURL "https://api.github.com" "acme/A"))
                     fake.start))
             eq_refl eq_refl eq_refl eq_refl).
  - reflexivity.
  - exists [("total_count", json.Number "2")], []. split; [reflexivity|].
    intros key j [E|[]]. now inversion E.
  - repeat constructor; apply fake_run_object.
Defined.

Lemma GetRepos_body_kinds_witness :
  fst (@GetRepos _ (fake.platform messaged)
         "https://api.github.com" "acme" "t" fake.start)
  = ([], Some (UnmarshalTypeError "object")).
Proof.
  destruct (@GetRepos_body_kinds _ (fake.platform messaged)
              "https://api.github.com" "acme" "t"
              {| http.StatusCode := 200; http.Status := "200 OK";
                 http.Body_ :=
                   Document (json.Object
                               [("message", json.Str "Not Found")]) |}
              fake.start
              (snd (fake.Do messaged
                      (request "t" (reposURL "https://api.github.com" "acme"))
                      fake.start))
              eq_refl eq_refl eq_refl) as (_ & Hkind & _).
  rewrite (Hkind (json.Object [("message", json.Str "Not Found")]) eq_refl).
  - reflexivity.
  - intros items E. discriminate E.
  - intros E. discriminate E.
Defined.

(* ================================================================== *)
(** * What the crawl sends                                             *)
(* ================================================================== *)

Section Requests.

Context {World : Type} (P : Platform World).

Lemma request_wellFormed (token url : string) :
  wellFormed token (request token url).
Proof.
  split; [reflexivity|].
  unfold request, setHeaders. cbn [http.Headers].
  change (fmt.Sprintf "Bearer %s" [token]) with ("Bearer " ++ token ++ "").
  rewrite append_nil_r. reflexivity.
Qed.

(** On the recording platform the client functions return what they
    return on the platform itself, and record their one request when the
    URL has parsed. *)
Lemma GetRepos_logged (githubURL org token : string) (w : World)
    (log : list http.Request) :
  @GetRepos _ (logged P) githubURL org token (w, log)
  = (fst (@GetRepos _ P githubURL org token w),
     (snd (@GetRepos _ P githubURL org token w),
      match @url_Parse _ P (reposURL githubURL org) with
      | Some _ => log
      | None => request token (reposURL githubURL org) :: log
      end)).
Proof.
  destruct (@url_Parse _ P (reposURL githubURL org)) as [e|] eqn:Hurl.
  - rewrite (@GetRepos_unparsed _ (logged P) _ _ _ _ e Hurl).
    now rewrite (@GetRepos_unparsed _ P _ _ _ _ e Hurl).
  - rewrite (@GetRepos_sends _ (logged P) _ _ _ _ Hurl).
    rewrite (@GetRepos_sends _ P _ _ _ _ Hurl).
    cbn [client_Do logged fst snd].
    destruct (@client_Do _ P _ w) as [[err|resp] w1]; cbn [fst snd];
      [reflexivity|].
    destruct (negb _); [reflexivity|].
    now destruct (snd (Decode store_Repos _ _)).
Qed.

Lemma GetWorkflowRuns_logged (githubURL repo token : string) (w : World)
    (log : list http.Request) :
  @GetWorkflowRuns _ (logged P) githubURL repo token (w, log)
  = (fst (@GetWorkflowRuns _ P githubURL repo token w),
     (snd (@GetWorkflowRuns _ P githubURL repo token w),
      match @url_Parse _ P (runsURL githubURL repo) with
      | Some _ => log
      | None => request token (runsURL githubURL repo) :: log
      end)).
Proof.
  destruct (@url_Parse _ P (runsURL githubURL repo)) as [e|] eqn:Hurl.
  - rewrite (@GetWorkflowRuns_unparsed _ (logged P) _ _ _ _ e Hurl).
    now rewrite (@GetWorkflowRuns_unparsed _ P _ _ _ _ e Hurl).
  - rewrite (@GetWorkflowRuns_sends _ (logged P) _ _ _ _ Hurl).
    rewrite (@GetWorkflowRuns_sends _ P _ _ _ _ Hurl).
    cbn [client_Do logged fst snd].
    destruct (@client_Do _ P _ w) as [[err|resp] w1]; cbn [fst snd];
      [reflexivity|].
    destruct (negb _); [reflexivity|].
    now destruct (snd (Decode store_workflowRuns _ _)).
Qed.

Lemma countRepos_logged_wellFormed (githubURL token : string)
    (repos : list Repo) :
  forall (acc : Z) (w : World) (log : list http.Request)
         (r : Z * option error) (w' : World) (log' : list http.Request),
    @countRepos _ (logged P) githubURL token repos acc (w, log)
    = (r, (w', log')) ->
    exists new, log' = (new ++ log)%list
                /\ Forall (wellFormed token) new.
Proof.
  induction repos as [|repo repos IH]; intros acc w log r w' log'; simpl.
  - unfold ret. intros E. inversion E. now exists [].
  - unfold bind at 1. rewrite GetWorkflowRuns_logged.
    destruct (@GetWorkflowRuns _ P githubURL (FullName repo) token w)
      as [[runs err] w1]. cbn [fst snd].
    assert (Hstep : exists one,
               match @url_Parse _ P (runsURL githubURL (FullName repo)) with
               | Some _ => log
               | None => request token (runsURL githubURL (FullName repo))
                         :: log
               end = (one ++ log)%list
               /\ Forall (wellFormed token) one).
    { destruct (@url_Parse _ P _).
      - now exists [].
      - exists [request token (runsURL githubURL (FullName repo))].
        split; [reflexivity|]. constructor; [|constructor].
        apply request_wellFormed. }
    destruct Hstep as (one & -> & Hone).
    destruct err as [e|].
    + unfold ret. intros E. inversion E. now exists one.
    + intros E. destruct (IH _ _ _ _ _ _ E) as (new & -> & Hnew).
      exists (new ++ one)%list. split; [now rewrite app_assoc|].
      apply Forall_app. now split.
Qed.

Lemma countRepos_logged_sequence (githubURL token : string)
    (repos : list Repo) :
  forall (acc n : Z) (w : World) (log : list http.Request)
         (w' : World) (log' : list http.Request),
    @countRepos _ (logged P) githubURL token repos acc (w, log)
    = ((n, None), (w', log')) ->
    log' = (rev (map (fun repo =>
                        request token (runsURL githubURL (FullName repo)))
                   repos) ++ log)%list.
Proof.
  induction repos as [|repo repos IH]; intros acc n w log w' log'; simpl.
  - unfold ret. intros E. now inversion E.
  - unfold bind at 1. rewrite GetWorkflowRuns_logged.
    destruct (@url_Parse _ P (runsURL githubURL (FullName repo)))
      as [e|] eqn:Hurl.
    + rewrite (@GetWorkflowRuns_unparsed _ P _ _ _ _ e Hurl). cbn [fst snd].
      unfold ret. intros E. discriminate E.
    + destruct (@GetWorkflowRuns _ P githubURL (FullName repo) token w)
        as [[runs [e|]] w1]; cbn [fst snd].
      * unfold ret. intros E. discriminate E.
      * intros E. rewrite (IH _ _ _ _ _ _ E). now rewrite <- app_assoc.
Qed.

End Requests.

(** X8.  Every request [CountQueuedJobs] hands to [client.Do], whether it
    succeeds or fails, is a GET whose header map [req.Header] holds
    exactly three entries, under the keys [Header.Set] stores them at:
    [X-Github-Api-Version] (the canonical form of the key the source
    writes) with [2022-11-28], [Accept] with
    [application/vnd.github+json], and [Authorization] with the bearer
    token. *)
Theorem CountQueuedJobs_requests_wellFormed {World : Type}
    (P : Platform World) (githubURL org token : string) (w w' : World)
    (log log' : list http.Request) (r : Z * option error) :
  @CountQueuedJobs _ (logged P) githubURL org token (w, log)
  = (r, (w', log')) ->
  exists new : list http.Request,
    log' = (new ++ log)%list /\ Forall (wellFormed token) new.
Proof.
  unfold CountQueuedJobs, bind at 1. rewrite GetRepos_logged.
  destruct (@GetRepos _ P githubURL org token w) as [[repos err] w1].
  cbn [fst snd].
  assert (Hstep : exists one,
             match @url_Parse _ P (reposURL githubURL org) with
             | Some _ => log
             | None => request token (reposURL githubURL org) :: log
             end = (one ++ log)%list
             /\ Forall (wellFormed token) one).
  { destruct (@url_Parse _ P _).
    - now exists [].
    - exists [request token (reposURL githubURL org)].
      split; [reflexivity|]. constructor; [|constructor].
      apply request_wellFormed. }
  destruct Hstep as (one & -> & Hone).
  destruct err as [e|].
  - unfold ret. intros E. inversion E. now exists one.
  - intros E.
    destruct (countRepos_logged_wellFormed P _ _ _ _ _ _ _ _ _ E)
      as (new & -> & Hnew).
    exists (new ++ one)%list. split; [now rewrite app_assoc|].
    apply Forall_app. now split.
Qed.

Lemma CountQueuedJobs_requests_wellFormed_witness :
  exists new : list http.Request,
    snd (snd (@CountQueuedJobs _ (logged (fake.platform fake.acme_B_down))
                "https://api.github.com/" "acme" "t" (fake.start, [])))
    = (new ++ [])%list
    /\ Forall (wellFormed "t") new.
Proof.
  apply (@CountQueuedJobs_requests_wellFormed _
           (fake.platform fake.acme_B_down)
           "https://api.github.com/" "acme" "t" fake.start
           (fst (snd (@CountQueuedJobs _
                        (logged (fake.platform fake.acme_B_down))
                        "https://api.github.com/" "acme" "t"
                        (fake.start, []))))
           []
           (snd (snd (@CountQueuedJobs _
                        (logged (fake.platform fake.acme_B_down))
                        "https://api.github.com/" "acme" "t"
                        (fake.start, []))))
           (fst (@CountQueuedJobs _
                   (logged (fake.platform fake.acme_B_down))
                   "https://api.github.com/" "acme" "t" (fake.start, [])))).
  vm_compute. reflexivity.
Defined.

(** X9.  When [CountQueuedJobs] succeeds it has sent one request for the
    list of repositories and then exactly one request per repository of
    that list, in the order of the list, each to the URL of that
    repository's workflow runs. *)
Theorem CountQueuedJobs_request_sequence {World : Type}
    (P : Platform World) (githubURL org token : string) (w w' : World)
    (log log' : list http.Request) (n : Z) :
  @CountQueuedJobs _ (logged P) githubURL org token (w, log)
  = ((n, None), (w', log')) ->
  rev log'
  = (rev log
     ++ request token (reposURL githubURL org)
     :: map (fun repo => request token (runsURL githubURL (FullName repo)))
          (fst (fst (@GetRepos _ P githubURL org token w))))%list.
Proof.
  unfold CountQueuedJobs, bind at 1. rewrite GetRepos_logged.
  destruct (@url_Parse _ P (reposURL githubURL org)) as [e|] eqn:Hurl.
  - rewrite (@GetRepos_unparsed _ P _ _ _ _ e Hurl). cbn [fst snd].
    unfold ret. intros E. discriminate E.
  - destruct (@GetRepos _ P githubURL org token w) as [[repos [e|]] w1];
      cbn [fst snd].
    + unfold ret. intros E. discriminate E.
    + intros E. rewrite (countRepos_logged_sequence P _ _ _ _ _ _ _ _ _ E).
      rewrite rev_app_distr, rev_involutive. simpl.
      now rewrite <- app_assoc.
Qed.

Lemma CountQueuedJobs_request_sequence_witness :
  map http.URL
    (rev (snd (snd (@CountQueuedJobs _ (logged (fake.platform fake.acme))
                      "https://api.github.com" "acme" "t" (fake.start, [])))))
  = ["https://api.github.com/orgs/acme/repos";
     "https://api.github.com/repos/acme/A/actions/runs";
     "https://api.github.com/repos/acme/B/actions/runs"].
Proof.
  rewrite (@CountQueuedJobs_request_sequence _ (fake.platform fake.acme)
             "https://api.github.com" "acme" "t" fake.start
             (fst (snd (@CountQueuedJobs _ (logged (fake.platform fake.acme))
                          "https://api.github.com" "acme" "t"
                          (fake.start, []))))
             []
             (snd (snd (@CountQueuedJobs _ (logged (fake.platform fake.acme))
                          "https://api.github.com" "acme" "t"
                          (fake.start, []))))
             3%Z).
  - vm_compute. reflexivity.
  - vm_compute. reflexivity.
Defined.

(* ================================================================== *)
(** * Further properties of the aggregator                             *)
(* ================================================================== *)

Section MoreAggregator.

Context {World : Type} `{Platform World}.

Lemma wrap_int_range (z : Z) : (MinInt <= wrap_int z <= MaxInt)%Z.
Proof.
  unfold wrap_int, MinInt, MaxInt.
  pose proof (Z.mod_pos_bound (z + 2 ^ 63) (2 ^ 64) eq_refl). lia.
Qed.

Lemma wrap_int_add (a b : Z) : wrap_int (wrap_int a + b) = wrap_int (a + b).
Proof.
  unfold wrap_int. f_equal.
  replace ((a + 2 ^ 63) mod 2 ^ 64 - 2 ^ 63 + b + 2 ^ 63)%Z
    with ((a + 2 ^ 63) mod 2 ^ 64 + b)%Z by lia.
  rewrite Zplus_mod_idemp_l. f_equal. lia.
Qed.

(** The inner loop counts modulo [2 ^ 64]. *)
Lemma countRuns_wraps (runs : list WorkflowRun) (acc : Z) :
  (MinInt <= acc <= MaxInt)%Z ->
  countRuns runs acc = wrap_int (acc + Z.of_nat (queued runs)).
Proof.
  revert acc; induction runs as [|run runs IH]; intros acc Hacc.
  - unfold queued; simpl. rewrite Z.add_0_r. symmetry.
    now apply wrap_int_small.
  - rewrite queued_cons. simpl. destruct (Status run =? "queued").
    + rewrite IH by apply wrap_int_range. rewrite wrap_int_add.
      f_equal. lia.
    + now rewrite IH.
Qed.

Lemma countRepos_wraps (githubURL token : string) (repos : list Repo)
    (rss : list (list WorkflowRun)) (w w' : World) :
  Crawled githubURL token repos w rss w' ->
  forall acc : Z,
    (MinInt <= acc <= MaxInt)%Z ->
    countRepos githubURL token repos acc w
    = ((wrap_int (acc + Z.of_nat (queuedTotal rss)), None), w').
Proof.
  induction 1 as [w|repo repos runs rss w w1 w2 Hruns _ IH]; intros acc Hacc.
  - unfold queuedTotal; simpl. unfold ret. rewrite Z.add_0_r.
    now rewrite wrap_int_small.
  - rewrite queuedTotal_cons. simpl. unfold bind at 1. rewrite Hruns.
    rewrite countRuns_wraps by exact Hacc.
    rewrite IH by apply wrap_int_range. rewrite wrap_int_add.
    do 3 f_equal. lia.
Qed.

End MoreAggregator.

(** X10.  Without any bound on the number of runs: when every listing
    succeeds, [CountQueuedJobs] returns the number of queued runs reduced
    modulo [2 ^ 64] into the range of [int]; it is the exact number as
    long as that fits. *)
Theorem CountQueuedJobs_wraps {World : Type} `{Platform World}
    (githubURL org token : string) (repos : list Repo)
    (rss : list (list WorkflowRun)) (w w1 w2 : World) :
  GetRepos githubURL org token w = ((repos, None), w1) ->
  Crawled githubURL token repos w1 rss w2 ->
  CountQueuedJobs githubURL org token w
  = ((wrap_int (Z.of_nat (queuedTotal rss)), None), w2)
  /\ (MinInt <= fst (fst (CountQueuedJobs githubURL org token w)) <= MaxInt)%Z.
Proof.
  intros Hrepos Hcrawl.
  assert (E : CountQueuedJobs githubURL org token w
              = ((wrap_int (Z.of_nat (queuedTotal rss)), None), w2)).
  { unfold CountQueuedJobs, bind. rewrite Hrepos.
    rewrite (countRepos_wraps _ _ _ _ _ _ Hcrawl 0%Z); [reflexivity|].
    unfold MinInt, MaxInt. lia. }
  split; [exact E|]. rewrite E. apply wrap_int_range.
Qed.

Lemma CountQueuedJobs_wraps_witness :
  @CountQueuedJobs _ (fake.platform fake.acme)
    "https://api.github.com" "acme" "t" fake.start
  = ((3%Z, None),
     snd (@CountQueuedJobs _ (fake.platform fake.acme)
            "https://api.github.com" "acme" "t" fake.start))
  /\ (MinInt
      <= fst (fst (@CountQueuedJobs _ (fake.platform fake.acme)
                     "https://api.github.com" "acme" "t" fake.start))
      <= MaxInt)%Z.
Proof.
  pose (w1 := snd (@GetRepos _ (fake.platform fake.acme)
                     "https://api.github.com" "acme" "t" fake.start)).
  pose (wA := snd (@GetWorkflowRuns _ (fake.platform fake.acme)
                     "https://api.github.com" "acme/A" "t" w1)).
  pose (wB := snd (@GetWorkflowRuns _ (fake.platform fake.acme)
                     "https://api.github.com" "acme/B" "t" wA)).
  apply (@CountQueuedJobs_wraps _ (fake.platform fake.acme)
           "https://api.github.com" "acme" "t"
           [{| FullName := "acme/A" |}; {| FullName := "acme/B" |}]
           [[{| Status := "queued" |}; {| Status := "completed" |}];
            [{| Status := "queued" |}; {| Status := "queued" |}]]
           fake.start w1 wB).
  - reflexivity.
  - apply Crawled_cons with (w1 := wA); [reflexivity|].
    apply Crawled_cons with (w1 := wB); [reflexivity|].
    apply Crawled_nil.
Defined.

(** X11.  The count of a listing does not depend on the order of its
    runs: the inner loop of [CountQueuedJobs] gives the same total on any
    rearrangement of a list of runs. *)
Theorem countRuns_order (runs runs' : list WorkflowRun) (acc : Z) :
  Permutation.Permutation runs runs' ->
  countRuns runs acc = countRuns runs' acc.
Proof.
  intros Hperm. revert acc.
  induction Hperm as [|x l l' _ IH|x y l|l1 l2 l3 _ IH12 _ IH23]; intros acc.
  - reflexivity.
  - simpl. destruct (Status x =? "queued"); apply IH.
  - simpl. now destruct (Status x =? "queued"), (Status y =? "queued").
  - now rewrite IH12.
Qed.

Lemma countRuns_order_witness :
  countRuns [{| Status := "queued" |}; {| Status := "completed" |}] 0
  = countRuns [{| Status := "completed" |}; {| Status := "queued" |}] 0.
Proof.
  apply countRuns_order. apply Permutation.perm_swap.
Defined.

(* ================================================================== *)
(** * Further properties of the handler                                *)
(* ================================================================== *)

Section MoreCache.

Lemma Time_Sub_nonneg (t u : Time) : (u <= t)%Z -> (0 <= Time_Sub t u)%Z.
Proof.
  unfold Time_Sub, maxDuration, minDuration, MaxInt, MinInt. intros Hle.
  destruct (Z.ltb_spec (2 ^ 63 - 1) (t - u)); [lia|].
  destruct (Z.ltb_spec (t - u) (- 2 ^ 63)); lia.
Qed.

End MoreCache.

(** X12.  With no assumption on the clock, the timeout or the upstream,
    the handler does one of three things, and which one is decided by the
    test [time.Since(lastUpdateTime) < cacheTimeout] alone.  When the test
    holds it answers 200 with [cachedJobs], calls nothing and changes no
    variable.  When the test fails it calls [CountQueuedJobs] once; if
    that call fails it answers 500 with the error of the call, never the
    older count, and leaves [cachedJobs] and [lastUpdateTime] as they
    were; if the call succeeds it answers 200 with the new count, stores
    it in [cachedJobs] and stores in [lastUpdateTime] the clock it reads
    after the call.  [cacheTimeout] is never changed. *)
Theorem QueuedJobsHandler_outcome {World : Type} `{Platform World}
    (env : Env) (g : Globals) (w : World) :
  cacheTimeout (snd (fst (QueuedJobsHandler env g w))) = cacheTimeout g
  /\ ((Time_Sub (fst (time_Now w)) (lastUpdateTime g) < cacheTimeout g)%Z ->
      QueuedJobsHandler env g w
      = ((WroteJSON (cachedJobs g), g), snd (time_Now w)))
  /\ ((cacheTimeout g <= Time_Sub (fst (time_Now w)) (lastUpdateTime g))%Z ->
      forall (n : Z) (err : option error) (w1 : World),
        CountQueuedJobs (githubURL_of env) (GITHUB_ORGANIZATION env)
          (GITHUB_TOKEN env) (snd (time_Now w))
        = ((n, err), w1) ->
        match err with
        | Some e =>
            QueuedJobsHandler env g w
            = ((WroteError e http.StatusInternalServerError, noteCrawl g),
               w1)
        | None =>
            QueuedJobsHandler env g w
            = ((WroteJSON n, refreshed g n (fst (time_Now w1))),
               snd (time_Now w1))
        end).
Proof.
  unfold QueuedJobsHandler, time_Since, bind, ret.
  destruct (time_Now w) as [now w0]. cbn [fst snd].
  destruct (Z.ltb_spec (Time_Sub now (lastUpdateTime g)) (cacheTimeout g))
    as [Hlt|Hge].
  - split; [reflexivity|]. split; [reflexivity|]. intros Hle. lia.
  - split; [|split].
    + destruct (CountQueuedJobs _ _ _ w0) as [[n [e|]] w1];
        [reflexivity|]. now destruct (time_Now w1).
    + intros Hlt. lia.
    + intros _ n err w1 Hcount. rewrite Hcount.
      destruct err as [e|]; [reflexivity|].
      now destruct (time_Now w1).
Qed.

Lemma QueuedJobsHandler_outcome_witness :
  @QueuedJobsHandler _ (fake.platform fake.acme) fake.env fake.warm
    fake.later
  = ((WroteJSON 3, fake.warm), snd (fake.Now fake.later))
  /\ fst (@QueuedJobsHandler _ (fake.platform fake.acme_B_down) fake.env
            fake.warm
            {| fake.clock := (fake.today + 70 * Second)%Z;
               fake.sent := [] |})
     = (WroteError (Errorf "error fetching workflow runs: 404 Not Found")
          500,
        noteCrawl fake.warm)
  /\ fst (@QueuedJobsHandler _ (fake.platform fake.acme) fake.env
            fake.cold fake.start)
     = (WroteJSON 3,
        refreshed fake.cold 3 (fake.today + 3 * Second)%Z).
Proof.
  split; [|split].
  - apply (proj1 (proj2 (@QueuedJobsHandler_outcome _
                           (fake.platform fake.acme) fake.env fake.warm
                           fake.later))).
    vm_compute. reflexivity.
  - pose (w := {| fake.clock := (fake.today + 70 * Second)%Z;
                  fake.sent := [] |}).
    pose (w1 := snd (@CountQueuedJobs _ (fake.platform fake.acme_B_down)
                       "https://api.github.com" "acme" "t"
                       (snd (fake.Now w)))).
    exact (f_equal fst
             (proj2 (proj2 (@QueuedJobsHandler_outcome _
                              (fake.platform fake.acme_B_down) fake.env
                              fake.warm w))
                ltac:(vm_compute; intros E; discriminate E)
                0%Z
                (Some (Errorf "error fetching workflow runs: 404 Not Found"))
                w1 ltac:(vm_compute; reflexivity))).
  - pose (w1 := snd (@CountQueuedJobs _ (fake.platform fake.acme)
                       "https://api.github.com" "acme" "t"
                       (snd (fake.Now fake.start)))).
    etransitivity.
    + exact (f_equal fst
               (proj2 (proj2 (@QueuedJobsHandler_outcome _
                                (fake.platform fake.acme) fake.env
                                fake.cold fake.start))
                  ltac:(vm_compute; intros E; discriminate E)
                  3%Z None w1 ltac:(vm_compute; reflexivity))).
    + vm_compute. reflexivity.
Defined.

(** X13.  A timeout of zero or less switches the cache off: every call
    that reads a clock not earlier than [lastUpdateTime] calls
    [CountQueuedJobs]. *)
Theorem nonpositive_timeout_always_crawls {World : Type} `{Platform World}
    (env : Env) (g : Globals) (w : World) :
  (cacheTimeout g <= 0)%Z ->
  (lastUpdateTime g <= fst (time_Now w))%Z ->
  crawls (snd (fst (QueuedJobsHandler env g w))) = S (crawls g).
Proof.
  intros Httl Hmono. unfold QueuedJobsHandler, time_Since, bind, ret.
  destruct (time_Now w) as [now w0]. simpl in Hmono.
  pose proof (Time_Sub_nonneg now (lastUpdateTime g) Hmono) as Hsub.
  destruct (Z.ltb_spec (Time_Sub now (lastUpdateTime g)) (cacheTimeout g));
    [lia|].
  destruct (CountQueuedJobs _ _ _ w0) as [[n [e|]] w1]; [reflexivity|].
  now destruct (time_Now w1).
Qed.

Lemma nonpositive_timeout_always_crawls_witness :
  crawls (snd (fst (@QueuedJobsHandler _ (fake.platform fake.acme) fake.env
                      switched_off fake.start)))
  = 2%nat.
Proof.
  apply (@nonpositive_timeout_always_crawls _ (fake.platform fake.acme)
           fake.env switched_off fake.start).
  - vm_compute. intros E. discriminate E.
  - vm_compute. intros E. discriminate E.
Defined.

(** X14.  Whatever value [main] read for the timeout, the first call
    after the start of the process finds the entry stale and calls
    [CountQueuedJobs]: [lastUpdateTime] is the zero time, further back
    than any duration when the clock stands later than the largest
    duration after it. *)
Theorem first_call_crawls {World : Type} `{Platform World}
    (env : Env) (value : string) (w : World) :
  (maxDuration <= fst (time_Now w))%Z ->
  crawls (snd (fst (QueuedJobsHandler env
                      (initially (main_cacheTimeout value)) w)))
  = 1%nat.
Proof.
  intros Hnow.
  apply (handler_stale_crawls env (initially (main_cacheTimeout value)) w).
  - apply cacheTimeout_of_isDuration.
  - unfold Stale. simpl. unfold zeroTime.
    pose proof (cacheTimeout_of_isDuration
                  match strconv.Atoi (if value =? "" then "60" else value)
                  with Some t => t | None => 60%Z end) as [_ Hmax].
    unfold main_cacheTimeout. lia.
Qed.

Lemma first_call_crawls_witness :
  crawls (snd (fst (@QueuedJobsHandler _ (fake.platform fake.down) fake.env
                      (initially (main_cacheTimeout "60")) fake.start)))
  = 1%nat.
Proof.
  apply (@first_call_crawls _ (fake.platform fake.down) fake.env "60"
           fake.start).
  vm_compute. intros E. discriminate E.
Defined.

(* ================================================================== *)
(** * Further properties of concurrent callers                         *)
(* ================================================================== *)

(** X16.  In every execution of any number of callers, whatever the
    upstream answers, at most one caller is between [cacheLock.Lock()] and
    the deferred [cacheLock.Unlock()]: none while the mutex is free, one
    while it is held. *)
Theorem mutual_exclusion {World : Type} `{Platform World}
    (env : Env) (g : Globals) (w : World) (s : System) :
  steps env (arrival g w) s -> exclusive s.
Proof. apply exclusive_steps, exclusive_arrival. Qed.

Lemma mutual_exclusion_witness :
  exists s : System,
    @steps _ (fake.platform fake.down) fake.env
      (arrival fake.cold fake.start) s
    /\ callers s 0%nat = Entered /\ exclusive s.
Proof.
  assert (Hrun : exists s : System,
             @steps _ (fake.platform fake.down) fake.env
               (arrival fake.cold fake.start) s
             /\ callers s 0%nat = Entered).
  { eexists. split.
    - run_Lock 0%nat. apply steps_refl.
    - reflexivity. }
  destruct Hrun as (s & Hs & H0).
  exists s. split; [exact Hs|]. split; [exact H0|].
  exact (@mutual_exclusion _ (fake.platform fake.down) fake.env fake.cold
           fake.start s Hs).
Defined.

(** X17.  While one caller is between [cacheLock.Lock()] and the
    deferred [cacheLock.Unlock()], no other caller moves.  In every
    execution, whatever the upstream answers, the only step that can be
    taken from a state in which caller [i] holds the lock is a step of
    [i] itself: the body of its handler, after which it still holds the
    lock, or its [Unlock], which changes no variable.  Callers that
    arrive during a recomputation stay where they are until it is over
    and the lock released. *)
Theorem holder_blocks_others {World : Type} `{Platform World}
    (env : Env) (g : Globals) (w : World) (s s' : System) (i : nat) :
  steps env (arrival g w) s ->
  inside (callers s i) = true ->
  step env s s' ->
  (forall j : nat, j <> i -> callers s' j = callers s j)
  /\ (callers s i = Entered ->
      locked s' = true /\ exists x : Written, callers s' i = Replied x)
  /\ (forall x : Written,
         callers s i = Replied x ->
         locked s' = false /\ callers s' i = Returned x
         /\ vars s' = vars s /\ world s' = world s).
Proof.
  intros Hrun Hi Hstep.
  destruct (exclusive_steps env _ _ (exclusive_arrival g w) Hrun)
    as (Hone & Hfree & _).
  assert (Hl : locked s = true).
  { destruct (locked s) eqn:Hl; [reflexivity|].
    rewrite (Hfree eq_refl i) in Hi. discriminate Hi. }
  destruct Hstep as [s k Hk Hl'|s k x g1 w1 Hk Hbody|s k x Hk].
  - rewrite Hl in Hl'. discriminate Hl'.
  - assert (k = i) as -> by (apply Hone; [now rewrite Hk | exact Hi]).
    cbn [callers locked vars world]. split; [|split].
    + intros j Hj. now apply upd_other.
    + intros _. split; [exact Hl|]. exists x. apply upd_same.
    + intros y Hy. rewrite Hk in Hy. discriminate Hy.
  - assert (k = i) as -> by (apply Hone; [now rewrite Hk | exact Hi]).
    cbn [callers locked vars world]. split; [|split].
    + intros j Hj. now apply upd_other.
    + intros Hy. rewrite Hk in Hy. discriminate Hy.
    + intros y Hy. rewrite Hk in Hy. inversion Hy; subst y.
      split; [reflexivity|]. split; [apply upd_same|]. now split.
Qed.

Lemma holder_blocks_others_witness :
  exists s' : System,
    @step _ (fake.platform fake.down) fake.env
      {| vars := fake.cold; world := fake.start; locked := true;
         callers := upd (fun _ => Arrived) 0%nat Entered |} s'
    /\ callers s' 1%nat = Arrived
    /\ locked s' = true
    /\ exists x : Written, callers s' 0%nat = Replied x.
Proof.
  pose (s := {| vars := fake.cold; world := fake.start; locked := true;
                callers := upd (fun _ => Arrived) 0%nat Entered |}).
  pose (r := @QueuedJobsHandler _ (fake.platform fake.down) fake.env
               fake.cold fake.start).
  pose (s' := {| vars := snd (fst r); world := snd r; locked := locked s;
                 callers := upd (callers s) 0%nat
                              (Replied (fst (fst r))) |}).
  assert (Hstep : @step _ (fake.platform fake.down) fake.env s s').
  { apply step_body; [reflexivity|]. unfold r.
    now destruct (QueuedJobsHandler _ _ _) as [[x g] w]. }
  exists s'. split; [exact Hstep|].
  destruct (@holder_blocks_others _ (fake.platform fake.down) fake.env
              fake.cold fake.start s s' 0%nat) as (Hothers & Hbody & _).
  - eapply steps_step; [apply steps_refl|].
    exact (step_Lock fake.env (arrival fake.cold fake.start) 0%nat
             eq_refl eq_refl).
  - reflexivity.
  - exact Hstep.
  - split.
    + rewrite (Hothers 1%nat); [reflexivity|]. intros E. discriminate E.
    + exact (Hbody eq_refl).
Defined.

(* ================================================================== *)
(** * [main]: the timeout read from the environment                    *)
(* ================================================================== *)

Section MoreMain.

Lemma isDigit_not_sign (c : ascii) :
  strconv.isDigit c = true -> (c =? "-")%char = false /\ (c =? "+")%char = false.
Proof.
  intros Hd. split.
  - destruct (Ascii.eqb_spec c "-") as [->|]; [discriminate Hd | reflexivity].
  - destruct (Ascii.eqb_spec c "+") as [->|]; [discriminate Hd | reflexivity].
Qed.

(** The digits of a decimal numeral are read back as its value. *)
Ltac read_digit IH :=
  cbn [DecimalString.NilEmpty.string_of_uint strconv.digits
       Pos.of_uint_acc Pos.of_uint];
  (match goal with
   | |- (if ?b then _ else _) = _ => change b with true; cbv iota
   end);
  (match goal with
   | |- context [nat_of_ascii ?c - 48] =>
       let k := eval vm_compute in (Z.of_nat (nat_of_ascii c - 48)) in
       change (Z.of_nat (nat_of_ascii c - 48)) with k
   end);
  rewrite <- IH; f_equal; lia.

Lemma digits_of_uint_acc (d : Decimal.uint) :
  forall acc : positive,
    strconv.digits (DecimalString.NilEmpty.string_of_uint d) (Zpos acc)
    = Some (Zpos (Pos.of_uint_acc d acc)).
Proof.
  induction d as [|d IH|d IH|d IH|d IH|d IH|d IH|d IH|d IH|d IH|d IH];
    intros acc; [reflexivity| ..]; read_digit IH.
Qed.

Lemma digits_of_uint (d : Decimal.uint) :
  strconv.digits (DecimalString.NilEmpty.string_of_uint d) 0
  = Some (Z.of_N (Pos.of_uint d)).
Proof.
  induction d as [|d IH|d IH|d IH|d IH|d IH|d IH|d IH|d IH|d IH|d IH];
    [reflexivity | exact IH | ..];
    cbn [DecimalString.NilEmpty.string_of_uint strconv.digits Pos.of_uint];
    (match goal with
     | |- (if ?b then _ else _) = _ => change b with true; cbv iota
     end);
    apply digits_of_uint_acc.
Qed.

Lemma uint_head (d : Decimal.uint) :
  d <> Decimal.Nil ->
  exists c rest,
    DecimalString.NilEmpty.string_of_uint d = String c rest
    /\ strconv.isDigit c = true.
Proof.
  destruct d; [intros Hn; now contradiction Hn| ..]; intros _; simpl;
    eexists _, _; split; reflexivity.
Qed.

Lemma to_uint_nonnil (n : N) : N.to_uint n <> Decimal.Nil.
Proof.
  destruct n as [|p]; [discriminate|].
  apply DecimalPos.Unsigned.to_uint_nonnil.
Qed.

Lemma Atoi_decimal (n : N) :
  (Z.of_N n <= MaxInt)%Z -> strconv.Atoi (decimal n) = Some (Z.of_N n).
Proof.
  intros Hfit. unfold decimal.
  destruct (uint_head (N.to_uint n) (to_uint_nonnil n))
    as (c & rest & Hs & Hd).
  pose proof (digits_of_uint (N.to_uint n)) as Hv.
  change (Pos.of_uint (N.to_uint n)) with (N.of_uint (N.to_uint n)) in Hv.
  rewrite DecimalN.Unsigned.of_to in Hv.
  rewrite Hs in *. unfold strconv.Atoi.
  destruct (isDigit_not_sign c Hd) as [-> ->]. cbn [orb].
  rewrite Hv.
  replace (MinInt <=? Z.of_N n)%Z with true
    by (symmetry; apply Z.leb_le; unfold MinInt; lia).
  replace (Z.of_N n <=? MaxInt)%Z with true
    by (symmetry; now apply Z.leb_le).
  reflexivity.
Qed.

Lemma decimal_nonempty (n : N) : (decimal n =? "") = false.
Proof.
  unfold decimal.
  destruct (uint_head (N.to_uint n) (to_uint_nonnil n))
    as (c & rest & -> & _).
  reflexivity.
Qed.

(** A byte that is not a digit makes [digits] fail, wherever it stands. *)
Lemma digits_nondigit (pre post : string) (c : ascii) (acc : Z) :
  strconv.isDigit c = false ->
  strconv.digits (pre ++ String c post) acc = None.
Proof.
  intros Hc. revert acc; induction pre as [|p pre IH]; intros acc; simpl.
  - now rewrite Hc.
  - destruct (strconv.isDigit p); [apply IH | reflexivity].
Qed.

Lemma Atoi_nondigit (pre post : string) (c : ascii) :
  strconv.isDigit c = false ->
  (pre = "" -> c <> "-"%char /\ c <> "+"%char) ->
  strconv.Atoi (pre ++ String c post) = None.
Proof.
  intros Hc Hsign. destruct pre as [|p pre]; simpl.
  - destruct (Hsign eq_refl) as [Hm Hp].
    apply Ascii.eqb_neq in Hm, Hp. rewrite Hm, Hp. simpl. now rewrite Hc.
  - destruct ((p =? "-")%char || (p =? "+")%char).
    + rewrite digits_nondigit by exact Hc.
      now destruct (pre ++ String c post).
    + change (String p (pre ++ String c post))
        with (String p pre ++ String c post).
      now rewrite digits_nondigit by exact Hc.
Qed.

End MoreMain.

(** X18.  For a number of seconds up to 9223372036 written in decimal,
    [main] sets the timeout to exactly that many seconds: the numeral is
    read back as its value and the product with [time.Second] does not
    overflow. *)
Theorem main_reads_seconds (n : N) :
  (Z.of_N n <= 9223372036)%Z ->
  main_cacheTimeout (decimal n) = (Z.of_N n * Second)%Z.
Proof.
  intros Hmax. unfold main_cacheTimeout.
  rewrite decimal_nonempty, Atoi_decimal by (unfold MaxInt; lia).
  unfold cacheTimeout_of. apply wrap_int_small.
  unfold MinInt, MaxInt, Second. lia.
Qed.

Lemma main_reads_seconds_witness :
  main_cacheTimeout "90" = (90 * Second)%Z.
Proof.
  apply (main_reads_seconds 90%N). vm_compute. intros E. discriminate E.
Defined.

(** X19.  When the value of the variable is empty, or holds a byte that
    is neither a decimal digit nor a sign in first place, [main] falls
    back to the default of 60 seconds. *)
Theorem main_falls_back (pre post : string) (c : ascii) :
  strconv.isDigit c = false ->
  (pre = "" -> c <> "-"%char /\ c <> "+"%char) ->
  main_cacheTimeout (pre ++ String c post) = (60 * Second)%Z
  /\ main_cacheTimeout "" = (60 * Second)%Z.
Proof.
  intros Hc Hsign. split; [|reflexivity].
  unfold main_cacheTimeout.
  replace (pre ++ String c post =? "") with false
    by (now destruct pre).
  now rewrite Atoi_nondigit.
Qed.

Lemma main_falls_back_witness :
  main_cacheTimeout "1.5" = (60 * Second)%Z
  /\ main_cacheTimeout "" = (60 * Second)%Z.
Proof.
  apply (main_falls_back "1" "5" "."%char).
  - reflexivity.
  - intros E. discriminate E.
Defined.

(** X20.  For a number of seconds from 9223372037 to 18446744073 written
    in decimal, the product with [time.Second] overflows and [main] sets
    a negative timeout. *)
Theorem main_overflows (n : N) :
  (9223372037 <= Z.of_N n <= 18446744073)%Z ->
  (main_cacheTimeout (decimal n) < 0)%Z.
Proof.
  intros Hn. unfold main_cacheTimeout.
  rewrite decimal_nonempty, Atoi_decimal by (unfold MaxInt; lia).
  unfold cacheTimeout_of, wrap_int, Second.
  replace (Z.of_N n * 1000000000 + 2 ^ 63)%Z
    with (Z.of_N n * 1000000000 + 2 ^ 63 - 2 ^ 64 + 1 * 2 ^ 64)%Z by lia.
  rewrite Z_mod_plus_full, Z.mod_small; lia.
Qed.

Lemma main_overflows_witness :
  (main_cacheTimeout "9223372037" < 0)%Z.
Proof.
  apply (main_overflows 9223372037%N).
  split; vm_compute; intros E; discriminate E.
Defined.



(* ================================================================== *)
(** * Errors and requests, end to end                                  *)
(* ================================================================== *)

(** X21.  A 200 response to the listing of runs whose body cannot be read
    as JSON, or whose JSON value is neither an object nor [null], makes
    [GetWorkflowRuns] fail: with the error of the body, or with a type
    error naming the kind of the value.  A body [null] gives no runs and
    no error. *)
Theorem GetWorkflowRuns_body_kinds {World : Type} `{Platform World}
    (githubURL repo token : string) (resp : http.Response) (w w1 : World) :
  url_Parse (runsURL githubURL repo) = None ->
  client_Do (request token (runsURL githubURL repo)) w = (inr resp, w1) ->
  http.StatusCode resp = http.StatusOK ->
  (forall e, http.Body_ resp = Unreadable e ->
             GetWorkflowRuns githubURL repo token w = (([], Some e), w1))
  /\ (forall j, http.Body_ resp = Document j ->
                (forall members, j <> json.Object members) ->
                j <> json.Null ->
                GetWorkflowRuns githubURL repo token w
                = (([], Some (UnmarshalTypeError (json.kind j))), w1))
  /\ (http.Body_ resp = Document json.Null ->
      GetWorkflowRuns githubURL repo token w = (([], None), w1)).
Proof.
  intros Hurl Hdo Hcode.
  rewrite (GetWorkflowRuns_sends _ _ _ _ Hurl), Hdo, Hcode.
  simpl negb. cbv iota.
  repeat split.
  - intros e ->. reflexivity.
  - intros j -> Hobj Hnull.
    destruct j as [|b|lit|s|items|members]; try reflexivity.
    + now contradiction Hnull.
    + now contradiction (Hobj members).
  - intros ->. reflexivity.
Qed.

Lemma GetWorkflowRuns_body_kinds_witness :
  fst (@GetWorkflowRuns _ (fake.platform bare_array)
         "https://api.github.com" "acme/A" "t" fake.start)
  = ([], Some (UnmarshalTypeError "array")).
Proof.
  destruct (@GetWorkflowRuns_body_kinds _ (fake.platform bare_array)
              "https://api.github.com" "acme/A" "t"
              {| http.StatusCode := 200; http.Status := "200 OK";
                 http.Body_ := Document (json.Array [fake.run "queued"]) |}
              fake.start
              (snd (fake.Do bare_array
                      (request "t" (runsURL "https://api.github.com"
                                      "acme/A")) fake.start))
              eq_refl eq_refl eq_refl) as (_ & Hkind & _).
  rewrite (Hkind (json.Array [fake.run "queued"]) eq_refl).
  - reflexivity.
  - intros members E. discriminate E.
  - intros E. discriminate E.
Defined.

(** X22.  A call made while the entry is fresh sends no request: on the
    recording platform the record of requests is as it was. *)
Theorem fresh_call_sends_nothing {World : Type} (P : Platform World)
    (env : Env) (g : Globals) (w : World) (log : list http.Request) :
  isDuration (cacheTimeout g) ->
  (lastUpdateTime g <= fst (@time_Now _ P w))%Z ->
  Fresh (fst (@time_Now _ P w)) (lastUpdateTime g) (cacheTimeout g) ->
  snd (snd (@QueuedJobsHandler _ (logged P) env g (w, log))) = log
  /\ fst (fst (@QueuedJobsHandler _ (logged P) env g (w, log)))
     = WroteJSON (cachedJobs g).
Proof.
  intros Hd Hmono Hfresh.
  rewrite (@handler_fresh _ (logged P) env g (w, log) Hd Hmono Hfresh).
  now split.
Qed.

Lemma fresh_call_sends_nothing_witness :
  snd (snd (@QueuedJobsHandler _ (logged (fake.platform fake.acme)) fake.env
              fake.warm (fake.later, [])))
  = [].
Proof.
  apply (@fresh_call_sends_nothing _ (fake.platform fake.acme) fake.env
           fake.warm fake.later []).
  - split; vm_compute; intros E; discriminate E.
  - vm_compute. intros E. discriminate E.
  - vm_compute. reflexivity.
Defined.

(** X23.  When the entry is stale and the first request does not get
    through, the handler answers 500 with the very error of the
    transport, after that one request, and the next call will try
    again: nothing is stored. *)
Theorem transport_error_surfaces {World : Type} `{Platform World}
    (env : Env) (g : Globals) (w w1 : World) (e : error) :
  isDuration (cacheTimeout g) ->
  Stale (fst (time_Now w)) (lastUpdateTime g) (cacheTimeout g) ->
  url_Parse (reposURL (githubURL_of env) (GITHUB_ORGANIZATION env)) = None ->
  client_Do (request (GITHUB_TOKEN env)
               (reposURL (githubURL_of env) (GITHUB_ORGANIZATION env)))
    (snd (time_Now w))
  = (inl e, w1) ->
  QueuedJobsHandler env g w
  = ((WroteError e http.StatusInternalServerError, noteCrawl g), w1).
Proof.
  intros Hd Hs Hurl Hdo.
  rewrite (handler_stale env g w Hd Hs).
  unfold CountQueuedJobs, bind at 1.
  now rewrite (GetRepos_sends _ _ _ _ Hurl), Hdo.
Qed.

Lemma transport_error_surfaces_witness :
  fst (fst (@QueuedJobsHandler _ (fake.platform unreachable) fake.env
              fake.cold fake.start))
  = WroteError (LibraryError "dial tcp: connection refused") 500.
Proof.
  rewrite (@transport_error_surfaces _ (fake.platform unreachable) fake.env
             fake.cold fake.start
             (snd (fake.Do unreachable
                     (request "t" (reposURL "https://api.github.com" "acme"))
                     fake.start))
             (LibraryError "dial tcp: connection refused")).
  - reflexivity.
  - split; vm_compute; intros E; discriminate E.
  - vm_compute. intros E. discriminate E.
  - reflexivity.
  - reflexivity.
Defined.
